(** * Aladin metadata provider (cps/metadata_provider/aladin.py)

    A shallow embedding of the [Aladin] provider of Calibre-Web: query
    normalisation, extraction of item identifiers from the search page,
    the per-item fetcher with its author/publisher heuristic, and the
    orchestrating [search] call.

    Python values are modelled as follows.
    - [str] is a list of Unicode code points ([N]); [bytes] is a list of
      [Byte.byte].
    - [int] used as an index is [Z]; indexing follows Python (negative
      indices count from the end, out of range raises [IndexError]).
    - An exception is a value of [exn]; code that can raise lives in the
      [result] monad, and a [try ... except] is a [match] on the result.
    - [print], [requests.get] and the call of the inherited tokenizer are
      recorded as events in a writer monad [IO].
    - A parsed page is a tree of [node]s with lxml's [text]/[tail] layout. *)

From Stdlib Require Import ZArith NArith QArith Qround Strings.Byte Ascii String Lia.
From stdpp Require Import base option list gmap strings.

Local Open Scope Z_scope.

(** ** Exceptions *)

Inductive exn :=
| IndexError
| TypeError
| AttributeError
| KeyError
| ValueError
| UnicodeEncodeError
| HTTPError.

Inductive result (A : Type) :=
| Ok (a : A)
| Raise (e : exn).
Arguments Ok {A} a.
Arguments Raise {A} e.

#[global] Instance result_ret : MRet result := fun A a => Ok a.
#[global] Instance result_bind : MBind result := fun A B f m =>
  match m with
  | Ok a => f a
  | Raise e => Raise e
  end.
#[global] Instance result_fmap : FMap result := fun A B f m =>
  match m with
  | Ok a => Ok (f a)
  | Raise e => Raise e
  end.

(** ** Strings *)

Definition codepoint := N.
Definition pystr := list codepoint.

(** An ASCII literal as a Python [str]. *)
Definition str (s : string) : pystr :=
  (fun a => N_of_ascii a) <$> list_ascii_of_string s.

(** [str.isspace] on one character: the code points CPython's
    [_PyUnicode_IsWhitespace] accepts. *)
Definition py_isspace (c : N) : bool :=
  ((9 <=? c) && (c <=? 13) || (28 <=? c) && (c <=? 32)
   || (c =? 133) || (c =? 160) || (c =? 5760)
   || (8192 <=? c) && (c <=? 8202)
   || (c =? 8232) || (c =? 8233) || (c =? 8239) || (c =? 8287)
   || (c =? 12288))%N.

Fixpoint lstrip (s : pystr) : pystr :=
  match s with
  | c :: s' => if py_isspace c then lstrip s' else s
  | [] => []
  end.

Definition rstrip (s : pystr) : pystr := rev (lstrip (rev s)).

(** [s.strip()] *)
Definition strip (s : pystr) : pystr := rstrip (lstrip s).

Fixpoint startswith (p s : pystr) : bool :=
  match p, s with
  | [], _ => true
  | _ :: _, [] => false
  | a :: p', b :: s' => bool_decide (a = b) && startswith p' s'
  end.

(** [needle in hay] on two strings *)
Fixpoint contains (needle hay : pystr) : bool :=
  startswith needle hay ||
  match hay with
  | [] => false
  | _ :: hay' => contains needle hay'
  end.

(** [sep.join(parts)] *)
Fixpoint join (sep : pystr) (parts : list pystr) : pystr :=
  match parts with
  | [] => []
  | [p] => p
  | p :: ps => p ++ sep ++ join sep ps
  end.

(** ** Sequences *)

(** [l[i]] *)
Definition py_index {A} (l : list A) (i : Z) : result A :=
  let n := Z.of_nat (length l) in
  let j := if i <? 0 then i + n else i in
  if (0 <=? j) && (j <? n) then
    match l !! Z.to_nat j with
    | Some x => Ok x
    | None => Raise IndexError
    end
  else Raise IndexError.

(** ** Parsed pages (lxml element trees) *)

#[local] Unset Elimination Schemes.
Inductive node :=
| Element (tag : pystr) (attrib : gmap pystr pystr) (text : option pystr)
          (children : list node) (tail : option pystr).
#[local] Set Elimination Schemes.

Definition tag (e : node) : pystr := let 'Element t _ _ _ _ := e in t.
Definition attrib (e : node) : gmap pystr pystr := let 'Element _ a _ _ _ := e in a.
Definition text (e : node) : option pystr := let 'Element _ _ t _ _ := e in t.
Definition children (e : node) : list node := let 'Element _ _ _ c _ := e in c.
Definition tail (e : node) : option pystr := let 'Element _ _ _ _ t := e in t.

(** [element.get(name)]: the attribute value, or [None] *)
Definition get (e : node) (name : pystr) : option pystr := attrib e !! name.

(** The selectors of the provider all have the shape [//tag[@attr='value']]. *)
Record selector := Selector {
  sel_tag : pystr;
  sel_attr : pystr;
  sel_value : pystr
}.

Definition selects (sel : selector) (e : node) : bool :=
  bool_decide (tag e = sel_tag sel)
  && bool_decide (attrib e !! sel_attr sel = Some (sel_value sel)).

(** The elements of a document in document order. *)
Fixpoint descendant_or_self (e : node) : list node :=
  match e with
  | Element _ _ _ cs _ =>
      e :: (fix walk (l : list node) : list node :=
              match l with
              | [] => []
              | c :: l' => descendant_or_self c ++ walk l'
              end) cs
  end.

(** [html.xpath(sel)] *)
Definition xpath (html : node) (sel : selector) : list node :=
  List.filter (selects sel) (descendant_or_self html).

Definition opt_list {A} (o : option A) : list A :=
  match o with
  | Some x => [x]
  | None => []
  end.

(** The text below an element other than the element at which the walk
    started: its text, its subtree, then its tail. *)
Fixpoint itertext_sub (e : node) : list pystr :=
  match e with
  | Element _ _ t cs tl =>
      opt_list t
      ++ (fix walk (l : list node) : list pystr :=
            match l with
            | [] => []
            | c :: l' => itertext_sub c ++ walk l'
            end) cs
      ++ opt_list tl
  end.

(** [element.itertext()]: the tail of the start element is not part of it. *)
Definition itertext (e : node) : list pystr :=
  opt_list (text e) ++ concat (itertext_sub <$> children e).

(** ** Class constants *)

Definition MAX_ITEMS : Z := 10.

Definition DESCRIPTION : pystr := str "aladin.co.kr".
Definition META_URL : pystr := str "https://www.aladin.co.kr/".
Definition BOOK_URL : pystr := str "https://www.aladin.co.kr/shop/wproduct.aspx".
Definition SEARCH_URL : pystr :=
  str "https://www.aladin.co.kr/search/wsearchresult.aspx?SearchTarget=All&ViewRowCount=10&SearchWord=".
Definition provider_id : pystr := str "aladin".

Definition ITEM_XPATH := Selector (str "div") (str "class") (str "ss_book_box").
Definition AUTHORS_AND_PUBLISHER_XPATH :=
  Selector (str "li") (str "class") (str "Ere_sub2_title").
Definition TITLE_XPATH := Selector (str "meta") (str "property") (str "og:title").
Definition COVER_XPATH := Selector (str "meta") (str "property") (str "og:image").
Definition DESCRIPTION_XPATH :=
  Selector (str "meta") (str "property") (str "og:description").
Definition ISBN_XPATH := Selector (str "meta") (str "property") (str "books:isbn").
Definition PUBLISHED_DATE_XPATH :=
  Selector (str "meta") (str "itemprop") (str "datePublished").
Definition RAITING10_XPATH :=
  Selector (str "a") (str "class") (str "Ere_sub_pink Ere_fs16 Ere_str").

(** ['(지은이)']: U+0028 U+C9C0 U+C740 U+C774 U+0029 *)
Definition AUTHOR_END_MARK : pystr := [40; 51648; 51008; 51060; 41]%N.

(** ** The author/publisher heuristic *)

(** [o.strip()] where [o] may be [None] *)
Definition py_strip (o : option pystr) : result pystr :=
  match o with
  | Some s => Ok (strip s)
  | None => Raise AttributeError
  end.

(** The first [while] loop of [_parse_author_and_publisher].  [n] bounds the
    number of iterations; the loop is entered with [n = len(sub) - i]. *)
Fixpoint author_loop (sub : list pystr) (n : nat) (i : Z) (authors : list pystr)
  : result (Z * list pystr) :=
  match n with
  | O => Ok (i, authors)
  | S n' =>
      if bool_decide (i ≠ Z.of_nat (length sub)) then
        frag ← py_index sub i;
        let author := strip frag in
        let i := i + 1 in
        if contains AUTHOR_END_MARK author then Ok (i, authors)
        else if bool_decide (author ≠ str ",") && bool_decide (author ≠ str "")
             then author_loop sub n' i (authors ++ [author])
             else author_loop sub n' i authors
      else Ok (i, authors)
  end.

(** The second [while] loop. *)
Fixpoint date_loop (sub : list pystr) (date_string : pystr) (n : nat) (i : Z)
  : result Z :=
  match n with
  | O => Ok i
  | S n' =>
      if bool_decide (i ≠ Z.of_nat (length sub)) then
        frag ← py_index sub i;
        if bool_decide (strip frag ≠ date_string)
        then date_loop sub date_string n' (i + 1)
        else Ok i
      else Ok i
  end.

Definition _parse_author_and_publisher (html : node) : result (list pystr * pystr) :=
  li ← py_index (xpath html AUTHORS_AND_PUBLISHER_XPATH) 0;
  let sub := itertext li in
  '(i, authors) ← author_loop sub (length sub) 0 [];
  meta ← py_index (xpath html PUBLISHED_DATE_XPATH) 0;
  date_string ← py_strip (get meta (str "content"));
  i ← date_loop sub date_string (Z.to_nat (Z.of_nat (length sub) - i)) i;
  if bool_decide (i ≠ Z.of_nat (length sub)) then
    publisher ← py_index sub (i - 1);
    Ok (authors, publisher)
  else Ok (authors, str "").

(** ** Query normalisation *)

Definition bytes := list byte.

Definition byte_of_N (n : N) : byte :=
  match Byte.of_N (n mod 256) with
  | Some b => b
  | None => x00
  end.

(** UTF-8 encoding of one code point; a surrogate or a value above U+10FFFF
    has none. *)
Definition encode_codepoint (c : N) : option bytes :=
  (if c <? 128 then Some [byte_of_N c]
   else if c <? 2048 then
     Some [byte_of_N (192 + c / 64); byte_of_N (128 + c mod 64)]
   else if (55296 <=? c) && (c <=? 57343) then None
   else if c <? 65536 then
     Some [byte_of_N (224 + c / 4096); byte_of_N (128 + (c / 64) mod 64);
           byte_of_N (128 + c mod 64)]
   else if c <? 1114112 then
     Some [byte_of_N (240 + c / 262144); byte_of_N (128 + (c / 4096) mod 64);
           byte_of_N (128 + (c / 64) mod 64); byte_of_N (128 + c mod 64)]
   else None)%N.

(** [s.encode("utf-8")] *)
Fixpoint encode_utf8 (s : pystr) : result bytes :=
  match s with
  | [] => Ok []
  | c :: s' =>
      match encode_codepoint c with
      | Some bs => rest ← encode_utf8 s'; Ok (bs ++ rest)
      | None => Raise UnicodeEncodeError
      end
  end.

(** The bytes [urllib.parse.quote] leaves alone: letters, digits, [_.-~]
    and the default [safe='/']. *)
Definition quote_safe (b : N) : bool :=
  ((65 <=? b) && (b <=? 90) || (97 <=? b) && (b <=? 122)
   || (48 <=? b) && (b <=? 57)
   || (b =? 95) || (b =? 46) || (b =? 45) || (b =? 126) || (b =? 47))%N.

Definition hex_digit (n : N) : N :=
  (if n <? 10 then 48 + n else 55 + n)%N.

Definition quote_byte (b : byte) : pystr :=
  let n := Byte.to_N b in
  if quote_safe n then [n]
  else [37; hex_digit (n / 16); hex_digit (n mod 16)]%N.

(** [quote(bs)] for a [bytes] argument *)
Definition quote (bs : bytes) : pystr := concat (quote_byte <$> bs).

(** [[f(x) for x in l]] where [f] can raise *)
Fixpoint comprehension {A B} (f : A → result B) (l : list A) : result (list B) :=
  match l with
  | [] => Ok []
  | x :: l' => y ← f x; ys ← comprehension f l'; Ok (y :: ys)
  end.

(** ** Effects *)

Inductive event :=
| Tokenize (title : pystr) (strip_joiners : bool)
| HttpGet (url : pystr)
| Stdout (line : pystr).

(** A computation: the events it caused, in order, and its outcome. *)
Definition IO (A : Type) : Type := (list event * result A)%type.

#[global] Instance IO_ret : MRet IO := fun A a => ([], Ok a).
#[global] Instance IO_bind : MBind IO := fun A B f m =>
  match m with
  | (log, Ok a) => let '(log', r) := f a in (log ++ log', r)
  | (log, Raise e) => (log, Raise e)
  end.

Definition emit (e : event) : IO unit := ([e], Ok tt).
Definition lift {A} (r : result A) : IO A := ([], r).

(** ** Records *)

(** Modelled from the spec: the dataclasses [MetaSourceInfo] and [MetaRecord]
    of [cps.services.Metadata], restricted to the fields the provider sets.
    A [MetaRecord] defines neither [__bool__] nor [__len__], so every record
    is truthy. *)
Record MetaSourceInfo := {
  source_id : pystr;
  source_description : pystr;
  source_link : pystr
}.

Record MetaRecord := {
  record_id : pystr;
  title : option pystr;
  authors : list pystr;
  url : pystr;
  source : MetaSourceInfo;
  cover : pystr;
  description : option pystr;
  identifiers : gmap pystr (option pystr);
  publisher : pystr;
  publishedDate : option pystr;
  rating : Z
}.

(** ** Dynamically typed values on the rating path

    The rating expression applies [float], subscripting, [.text],
    [.strip()], [//], [+] and [int] to whatever the previous step produced,
    so these operations are modelled on a universe of run-time values.  A
    [float] is represented by the rational it denotes. *)

Inductive pyval :=
| VNone
| VStr (s : pystr)
| VInt (z : Z)
| VFloat (q : Q)
| VElement (e : node)
| VList (l : list node).

Definition is_digit (c : N) : bool := ((48 <=? c) && (c <=? 57))%N.

Fixpoint digits_value (acc : N) (s : pystr) : N :=
  match s with
  | [] => acc
  | c :: s' => digits_value (10 * acc + (c - 48))%N s'
  end.

Fixpoint split_at_dot (s : pystr) : pystr * option pystr :=
  match s with
  | [] => ([], None)
  | c :: s' =>
      if (c =? 46)%N then ([], Some s')
      else let '(a, b) := split_at_dot s' in (c :: a, b)
  end.

(** Plain decimal numerals ([8.5], [-3], [.5], [7.]) with surrounding
    whitespace, the shape of the site's rating text.  The other spellings
    Python's [float] and [int] read (exponents, [inf], [nan], digit-group
    underscores) are not modelled and count as unparsable; the provider
    never hands a string to [float], see [rating_block_raises]. *)
Definition parse_decimal (s : pystr) : option Q :=
  let s := strip s in
  let '(neg, s) :=
    match s with
    | 45%N :: r => (true, r)
    | 43%N :: r => (false, r)
    | _ => (false, s)
    end in
  let '(ip, fp) := split_at_dot s in
  let fp := default [] fp in
  if forallb is_digit (ip ++ fp) && negb (bool_decide (ip ++ fp = [])) then
    let m := Z.of_N (digits_value 0 (ip ++ fp)) in
    let q := Qred (Qmake m (Z.to_pos (10 ^ Z.of_nat (length fp)))) in
    Some (if neg then Qopp q else q)
  else None.

(** [float(v)] *)
Definition py_float (v : pyval) : result pyval :=
  match v with
  | VFloat q => Ok (VFloat q)
  | VInt z => Ok (VFloat (inject_Z z))
  | VStr s =>
      match parse_decimal s with
      | Some q => Ok (VFloat q)
      | None => Raise ValueError
      end
  | VNone | VElement _ | VList _ => Raise TypeError
  end.

(** [v[i]]: a list yields its item, an element its i-th child, a string a
    one-character string; numbers and [None] are not subscriptable. *)
Definition py_getitem (v : pyval) (i : Z) : result pyval :=
  match v with
  | VList l => VElement <$> py_index l i
  | VElement e => VElement <$> py_index (children e) i
  | VStr s => (fun c => VStr [c]) <$> py_index s i
  | VNone | VInt _ | VFloat _ => Raise TypeError
  end.

(** [v.text] *)
Definition py_text (v : pyval) : result pyval :=
  match v with
  | VElement e => Ok (from_option VStr VNone (text e))
  | _ => Raise AttributeError
  end.

(** [v.strip()] *)
Definition py_strip_method (v : pyval) : result pyval :=
  match v with
  | VStr s => Ok (VStr (strip s))
  | _ => Raise AttributeError
  end.

(** [v // 2] *)
Definition py_floordiv_2 (v : pyval) : result pyval :=
  match v with
  | VInt z => Ok (VInt (z / 2))
  | VFloat q => Ok (VFloat (inject_Z (Qfloor (q / 2)%Q)))
  | _ => Raise TypeError
  end.

(** [v + 0.5] *)
Definition py_add_half (v : pyval) : result pyval :=
  match v with
  | VInt z => Ok (VFloat (inject_Z z + (1 # 2))%Q)
  | VFloat q => Ok (VFloat (q + (1 # 2))%Q)
  | _ => Raise TypeError
  end.

(** Truncation towards zero. *)
Definition Qtrunc (q : Q) : Z :=
  if Qle_bool 0 q then Qfloor q else Qceiling q.

(** [int(v)] *)
Definition py_int (v : pyval) : result Z :=
  match v with
  | VInt z => Ok z
  | VFloat q => Ok (Qtrunc q)
  | VStr s =>
      match split_at_dot s, parse_decimal s with
      | (_, None), Some q => Ok (Qfloor q)
      | _, _ => Raise ValueError
      end
  | VNone | VElement _ | VList _ => Raise TypeError
  end.

(** ** The provider *)

(** The instance state the provider reads: the [active] flag of the base
    class. *)
Record Aladin := { active : bool }.

(** [x or y] for an optional string [x] *)
Definition py_or (x : option pystr) (y : pystr) : pystr :=
  match x with
  | Some s => if bool_decide (s = []) then y else s
  | None => y
  end.

(** [not l] for an optional list *)
Definition py_not {A} (l : option (list A)) : bool :=
  match l with
  | None | Some [] => true
  | Some (_ :: _) => false
  end.

(** [_get_description] *)
Definition _get_description (html : node) : result (option pystr) :=
  meta ← py_index (xpath html DESCRIPTION_XPATH) 0;
  Ok (get meta (str "content")).

(** The inner [try] block of [_fetch_book]: the two statements that compute
    [raiting]. *)
Definition rating_block (html : node) : result Z :=
  v ← py_float (VList (xpath html RAITING10_XPATH));
  v ← py_getitem v 0;
  v ← py_text v;
  raiting_10 ← py_strip_method v;
  v ← py_floordiv_2 raiting_10;
  v ← py_add_half v;
  py_int v.

(** The outer [try] block of [_fetch_book]. *)
Definition fetch_book_block (html : node) (id url generic_cover : pystr)
  : result MetaRecord :=
  meta ← py_index (xpath html TITLE_XPATH) 0;
  let title := get meta (str "content") in
  '(authors, publisher) ← _parse_author_and_publisher html;
  let source := {| source_id := provider_id;
                   source_description := DESCRIPTION;
                   source_link := META_URL |} in
  meta ← py_index (xpath html COVER_XPATH) 0;
  let cover := py_or (get meta (str "content")) generic_cover in
  description ← _get_description html;
  meta ← py_index (xpath html ISBN_XPATH) 0;
  let identifiers : gmap pystr (option pystr) :=
    {[ str "isbn" := get meta (str "content") ]} in
  meta ← py_index (xpath html PUBLISHED_DATE_XPATH) 0;
  let publishedDate := get meta (str "content") in
  let raiting :=
    match rating_block html with
    | Ok raiting => raiting
    | Raise _ => 0
    end in
  Ok {| record_id := id;
        title := title;
        authors := authors;
        url := url;
        source := source;
        cover := cover;
        description := description;
        identifiers := identifiers;
        publisher := publisher;
        publishedDate := publishedDate;
        rating := raiting |}.

Section Provider.

(** The tokenizer inherited from [Metadata] (consumed as a list). *)
Variable get_title_tokens : pystr → bool → list pystr.

(** The site: what the [try] block of [_http_get] yields for a URL, a
    parsed page or an exception. *)
Variable web : pystr → result node.

(** [futures.as_completed]: the results of the submitted tasks in the order
    in which they complete. *)
Variable as_completed : list (option MetaRecord) → list (option MetaRecord).

(** [_parse_query] *)
Definition _parse_query (query : pystr) : IO pystr :=
  _ ← emit (Tokenize query false);
  let title_tokens := get_title_tokens query false in
  if bool_decide (title_tokens ≠ []) then
    tokens ← lift (comprehension (fun t => quote <$> encode_utf8 t) title_tokens);
    mret (join (str "+") tokens)
  else mret query.

(** [_http_get] *)
Definition _http_get (url : pystr) : IO (option node) :=
  _ ← emit (HttpGet url);
  match web url with
  | Ok html => mret (Some html)
  | Raise _ => mret None
  end.

(** [_search_book_id] *)
Definition _search_book_id (query : pystr) : IO (option (list pystr)) :=
  html ← _http_get (SEARCH_URL ++ query);
  match html with
  | None => mret None
  | Some html =>
      let item_elements := take 10 (xpath html ITEM_XPATH) in
      ids ← lift (comprehension
                    (fun element =>
                       match attrib element !! str "itemid" with
                       | Some v => Ok v
                       | None => Raise KeyError
                       end)
                    (filter
                       (fun element => is_Some (attrib element !! str "itemid"))
                       item_elements));
      mret (Some ids)
  end.

(** [_fetch_book] *)
Definition _fetch_book (id generic_cover : pystr) : IO (option MetaRecord) :=
  let url := BOOK_URL ++ str "?ItemId=" ++ id in
  html ← _http_get url;
  match html with
  | None => mret None
  | Some html =>
      match fetch_book_block html id url generic_cover with
      | Ok record => mret (Some record)
      | Raise _ => mret None
      end
  end.

(** The worker pool: one [_fetch_book] task per id.  The events of the
    tasks are listed in submission order. *)
Fixpoint submit_all (book_id_list : list pystr) (generic_cover : pystr)
  : IO (list (option MetaRecord)) :=
  match book_id_list with
  | [] => mret []
  | book_id :: rest =>
      future ← _fetch_book book_id generic_cover;
      future_list ← submit_all rest generic_cover;
      mret (future :: future_list)
  end.

(** [search] *)
Definition search (self : Aladin) (query generic_cover locale : pystr)
  : IO (option (list MetaRecord)) :=
  if active self then
    query ← _parse_query query;
    book_id_list ← _search_book_id query;
    if py_not book_id_list then
      _ ← emit (Stdout (str "No book found"));
      mret None
    else
      future_list ← submit_all (default [] book_id_list) generic_cover;
      mret (Some (omap (fun r => r) (as_completed future_list)))
  else mret (Some []).

End Provider.

(** ** Sample pages *)

Module Samples.

Definition meta (attr value content : string) : node :=
  Element (str "meta") {[ str attr := str value; str "content" := str content ]}
          None [] None.

Definition anchor (label : pystr) (after : option pystr) : node :=
  Element (str "a") ∅ (Some label) [] after.

(** [<li class="Ere_sub2_title"><a>Jane Doe</a>(지은이)<a>Acme Press</a>2020-01-01</li>] *)
Definition author_block : node :=
  Element (str "li") {[ str "class" := str "Ere_sub2_title" ]} None
    [ anchor (str "Jane Doe") (Some AUTHOR_END_MARK);
      anchor (str "Acme Press") (Some (str "2020-01-01")) ] None.

(** The same block with the white space a pretty-printed page carries and a
    second author. *)
Definition spaced_block : node :=
  Element (str "li") {[ str "class" := str "Ere_sub2_title" ]} (Some (str " "))
    [ anchor (str "Jane Doe") (Some (str ", "));
      anchor (str " John Roe ") (Some (str " " ++ AUTHOR_END_MARK ++ str " "));
      anchor (str " Acme Press ") (Some (str " 2020-01-01 ")) ] None.

(** A block in which the date follows the marker directly. *)
Definition dateless_publisher_block : node :=
  Element (str "li") {[ str "class" := str "Ere_sub2_title" ]} None
    [ anchor (str "Jane Doe") (Some (str " " ++ AUTHOR_END_MARK ++ str " "));
      anchor (str "2020-01-01") None ] None.

Definition rating_anchor (label : string) : node :=
  Element (str "a") {[ str "class" := str "Ere_sub_pink Ere_fs16 Ere_str" ]}
          (Some (str label)) [] None.

Definition page_of (head body : list node) : node :=
  Element (str "html") ∅ None
    [ Element (str "head") ∅ None head None;
      Element (str "body") ∅ None body None ] None.

Definition og_title := meta "property" "og:title" "A Book".
Definition og_image := meta "property" "og:image" "https://image.aladin.co.kr/1.jpg".
Definition og_description := meta "property" "og:description" "A short description".
Definition books_isbn := meta "property" "books:isbn" "9780000000001".
Definition date_published := meta "itemprop" "datePublished" "2020-01-01".

(** A complete detail page whose rating anchor reads [8.5]. *)
Definition detail_page : node :=
  page_of [og_title; og_image; og_description; books_isbn; date_published]
          [author_block; rating_anchor "8.5"].

(** The same page without a rating anchor. *)
Definition unrated_page : node :=
  page_of [og_title; og_image; og_description; books_isbn; date_published]
          [author_block].

(** The same page without the [og:image] tag. *)
Definition coverless_page : node :=
  page_of [og_title; og_description; books_isbn; date_published]
          [author_block; rating_anchor "8.5"].

(** The same page whose [og:image] tag has no [content] attribute. *)
Definition blank_cover_page : node :=
  page_of [og_title;
           Element (str "meta") {[ str "property" := str "og:image" ]} None [] None;
           og_description; books_isbn; date_published]
          [author_block; rating_anchor "8.5"].

(** The same page without the [og:title] tag. *)
Definition untitled_page : node :=
  page_of [og_image; og_description; books_isbn; date_published]
          [author_block; rating_anchor "8.5"].

Definition spaced_page : node :=
  page_of [og_title; og_image; og_description; books_isbn; date_published]
          [spaced_block].

Definition dateless_publisher_page : node :=
  page_of [og_title; og_image; og_description; books_isbn; date_published]
          [dateless_publisher_block].

Definition item (attrs : gmap pystr pystr) : node :=
  Element (str "div") ({[ str "class" := str "ss_book_box" ]} ∪ attrs) None [] None.

(** A search page with twelve result boxes; the second has no [itemid]. *)
Definition search_page : node :=
  page_of []
    [ item {[ str "itemid" := str "101" ]}; item ∅;
      item {[ str "itemid" := str "103" ]}; item {[ str "itemid" := str "104" ]};
      item {[ str "itemid" := str "105" ]}; item {[ str "itemid" := str "106" ]};
      item {[ str "itemid" := str "107" ]}; item {[ str "itemid" := str "108" ]};
      item {[ str "itemid" := str "109" ]}; item {[ str "itemid" := str "110" ]};
      item {[ str "itemid" := str "111" ]}; item {[ str "itemid" := str "112" ]} ].

(** A search page without result boxes. *)
Definition empty_search_page : node := page_of [] [].

(** A tokenizer standing in for the inherited one: split at spaces. *)
Fixpoint split_spaces (cur : pystr) (s : pystr) : list pystr :=
  match s with
  | [] => if bool_decide (cur = []) then [] else [cur]
  | c :: s' =>
      if (c =? 32)%N
      then (if bool_decide (cur = []) then [] else [cur]) ++ split_spaces [] s'
      else split_spaces (cur ++ [c]) s'
  end.

Definition tokens (title : pystr) (strip_joiners : bool) : list pystr :=
  split_spaces [] title.

(** A site: one search page and detail pages for items 101 and 103. *)
Definition site (url : pystr) : result node :=
  if bool_decide (url = SEARCH_URL ++ str "A+Book") then Ok search_page
  else if bool_decide (url = SEARCH_URL ++ str "nothing") then Ok empty_search_page
  else if bool_decide (url = BOOK_URL ++ str "?ItemId=101") then Ok detail_page
  else if bool_decide (url = BOOK_URL ++ str "?ItemId=103") then Ok unrated_page
  else if bool_decide (url = BOOK_URL ++ str "?ItemId=104") then Ok coverless_page
  else Raise HTTPError.

(** A site that is down. *)
Definition offline (url : pystr) : result node := Raise HTTPError.

End Samples.

(** ** Characterisations used in the statements *)

(** How many fragments the author loop reads: up to and including the first
    one whose trimmed text holds the marker. *)
Fixpoint scanned (frags : list pystr) : nat :=
  match frags with
  | [] => O
  | f :: rest =>
      if contains AUTHOR_END_MARK (strip f) then 1%nat else S (scanned rest)
  end.

(** The names the author loop collects. *)
Fixpoint authors_of (frags : list pystr) : list pystr :=
  match frags with
  | [] => []
  | f :: rest =>
      if contains AUTHOR_END_MARK (strip f) then []
      else if bool_decide (strip f ≠ str ",") && bool_decide (strip f ≠ str "")
           then strip f :: authors_of rest
           else authors_of rest
  end.

(** The fragments after the marker fragment; none when there is no marker. *)
Fixpoint post_marker (frags : list pystr) : list pystr :=
  match frags with
  | [] => []
  | f :: rest =>
      if contains AUTHOR_END_MARK (strip f) then rest else post_marker rest
  end.

(** How far the date loop advances: to the first fragment whose trimmed text
    is the date string, or to the end. *)
Fixpoint date_offset (date_string : pystr) (frags : list pystr) : nat :=
  match frags with
  | [] => O
  | f :: rest =>
      if bool_decide (strip f ≠ date_string)
      then S (date_offset date_string rest) else O
  end.

(** The index at which the date loop stops. *)
Definition date_index (sub : list pystr) (date_string : pystr) : nat :=
  (scanned sub + date_offset date_string (post_marker sub))%nat.

(** The publisher the method settles on. *)
Definition publisher_of (sub : list pystr) (date_string : pystr) : pystr :=
  let i := date_index sub date_string in
  if bool_decide (i ≠ length sub) then default [] (sub !! (i - 1)%nat) else [].

(** The detail-page URL of an item. *)
Definition book_url (id : pystr) : pystr := BOOK_URL ++ str "?ItemId=" ++ id.

(** What [future.result()] yields for the task of one id. *)
Definition fetch_result (web : pystr → result node) (id generic_cover : pystr)
  : option MetaRecord :=
  match (_fetch_book web id generic_cover).2 with
  | Ok outcome => outcome
  | Raise _ => None
  end.

(** The scaling in the words of the specification: [int(value/2 + 0.5)]. *)
Definition scaled_rating (value : Q) : Z := Qtrunc (value / 2 + (1 # 2))%Q.

(** Code points that have a UTF-8 encoding: the Unicode scalar values. *)
Definition scalar_value (c : N) : Prop :=
  (c < 55296 ∨ 57343 < c ∧ c < 1114112)%N.

(** The ids of the records a search returned. *)
Definition returned_ids (r : IO (option (list MetaRecord))) : option (list pystr) :=
  match r.2 with
  | Ok (Some records) => Some (record_id <$> records)
  | _ => None
  end.

(** ** Characterisations used in the further properties *)

(** The test a trimmed fragment passes to become an author. *)
Definition author_name (a : pystr) : Prop := a ≠ str "," ∧ a ≠ str "".

#[global] Instance author_name_dec a : Decision (author_name a).
Proof. unfold author_name. apply _. Defined.

(** A fragment whose trimmed text holds the marker. *)
Definition marker_fragment (f : pystr) : Prop :=
  contains AUTHOR_END_MARK (strip f) = true.

(** The characters a normalised query is made of: what [quote] leaves
    alone, the [%] and hexadecimal digits of an escape, and the [+] between
    tokens. *)
Definition query_char (c : N) : bool :=
  quote_safe c || (c =? 37)%N || (c =? 43)%N.

(** The requests in an event log. *)
Definition requests (log : list event) : list pystr :=
  omap (fun e => match e with HttpGet url => Some url | _ => None end) log.

(** The lines printed in an event log. *)
Definition printed (log : list event) : list pystr :=
  omap (fun e => match e with Stdout line => Some line | _ => None end) log.

(** ** Further sample pages *)

Module MoreSamples.

(** A sub-title block without the marker. *)
Definition unmarked_block : node :=
  Element (str "li") {[ str "class" := str "Ere_sub2_title" ]} None
    [ Samples.anchor (str "Jane Doe") (Some (str ", "));
      Samples.anchor (str "Acme Press") (Some (str "2020-01-01")) ] None.

Definition unmarked_page : node :=
  Samples.page_of
    [Samples.og_title; Samples.og_image; Samples.og_description;
     Samples.books_isbn; Samples.date_published]
    [unmarked_block].

(** A [meta] tag without a [content] attribute. *)
Definition bare_meta (attr value : string) : node :=
  Element (str "meta") {[ str attr := str value ]} None [] None.

(** A detail page whose title, cover, description and isbn tags carry no
    [content]. *)
Definition bare_page : node :=
  Samples.page_of
    [bare_meta "property" "og:title"; bare_meta "property" "og:image";
     bare_meta "property" "og:description"; bare_meta "property" "books:isbn";
     Samples.date_published]
    [Samples.author_block].

(** A detail page whose date tag carries no [content]. *)
Definition undated_page : node :=
  Samples.page_of
    [Samples.og_title; Samples.og_image; Samples.og_description;
     Samples.books_isbn; bare_meta "itemprop" "datePublished"]
    [Samples.author_block].

(** A search page with two result boxes, both with an [itemid]. *)
Definition short_search_page : node :=
  Samples.page_of []
    [ Samples.item {[ str "itemid" := str "101" ]};
      Samples.item {[ str "itemid" := str "103" ]} ].

End MoreSamples.

(** ** Normalisation in the words of the specification

    A second description of what [_parse_query] is to produce, written from
    the formats themselves rather than from the code: the bit layout of
    UTF-8 (RFC 3629), percent-encoding with the table of characters left
    alone and the table of hexadecimal digits, and the tokens set one after
    the other with a [+] before each one but the first. *)

(** The bytes of a Unicode scalar value. *)
Definition utf8_spec (c : N) : list N :=
  (if c <? 0x80 then [c]
   else if c <? 0x800 then
     [N.lor 0xC0 (N.shiftr c 6);
      N.lor 0x80 (N.land c 0x3F)]
   else if c <? 0x10000 then
     [N.lor 0xE0 (N.shiftr c 12);
      N.lor 0x80 (N.land (N.shiftr c 6) 0x3F);
      N.lor 0x80 (N.land c 0x3F)]
   else
     [N.lor 0xF0 (N.shiftr c 18);
      N.lor 0x80 (N.land (N.shiftr c 12) 0x3F);
      N.lor 0x80 (N.land (N.shiftr c 6) 0x3F);
      N.lor 0x80 (N.land c 0x3F)])%N.

(** The characters that stand for themselves. *)
Definition unreserved : pystr :=
  str "ABCDEFGHIJKLMNOPQRSTUVWXYZabcdefghijklmnopqrstuvwxyz0123456789_.-~/".

Definition hex_upper : pystr := str "0123456789ABCDEF".

(** One byte: itself when unreserved, [%XX] otherwise. *)
Definition percent_byte_spec (b : N) : pystr :=
  if existsb (N.eqb b) unreserved then [b]
  else [37%N;
        nth (N.to_nat (b / 16)) hex_upper 0%N;
        nth (N.to_nat (b mod 16)) hex_upper 0%N].

Definition percent_encode_spec (bs : list N) : pystr :=
  flat_map percent_byte_spec bs.

(** The normalised form of a list of tokens. *)
Definition normalise_spec (tokens : list pystr) : pystr :=
  match (fun t => percent_encode_spec (flat_map utf8_spec t)) <$> tokens with
  | [] => []
  | part :: parts => part ++ flat_map (fun p => 43%N :: p) parts
  end.

(** * Properties *)

(** ** Indexing *)

Lemma py_index_0 {A} (l : list A) :
  py_index l 0 = match l with [] => Raise IndexError | x :: _ => Ok x end.
Proof.
  unfold py_index. destruct l as [|x l]; [reflexivity|].
  cbn [length]. replace (0 <? 0) with false by reflexivity.
  replace (0 <=? 0) with true by reflexivity.
  replace (0 <? Z.of_nat (S (length l))) with true by (symmetry; apply Z.ltb_lt; lia).
  reflexivity.
Qed.

Lemma py_index_nat {A} (l : list A) (k : nat) x :
  l !! k = Some x → py_index l (Z.of_nat k) = Ok x.
Proof.
  intros H. unfold py_index.
  pose proof (lookup_lt_Some _ _ _ H) as Hlt.
  replace (Z.of_nat k <? 0) with false by (symmetry; apply Z.ltb_ge; lia).
  replace (0 <=? Z.of_nat k) with true by (symmetry; apply Z.leb_le; lia).
  replace (Z.of_nat k <? Z.of_nat (length l)) with true by (symmetry; apply Z.ltb_lt; lia).
  cbn. rewrite Nat2Z.id, H. reflexivity.
Qed.

(** ** The two loops of the heuristic *)

Lemma author_loop_spec pre rest n acc :
  (length rest ≤ n)%nat →
  author_loop (pre ++ rest) n (Z.of_nat (length pre)) acc
  = Ok (Z.of_nat (length pre + scanned rest), acc ++ authors_of rest).
Proof.
  revert pre n acc. induction rest as [|f rest IH]; intros pre n acc Hn.
  - rewrite app_nil_r, Nat.add_0_r. destruct n; cbn [author_loop].
    + by rewrite app_nil_r.
    + rewrite bool_decide_eq_false_2 by (intros H; by apply H). by rewrite app_nil_r.
  - destruct n as [|n]; [cbn in Hn; lia|]. cbn [author_loop].
    rewrite bool_decide_eq_true_2 by (rewrite length_app; cbn; lia).
    rewrite (py_index_nat _ _ f) by (by rewrite list_lookup_middle).
    cbn [mbind result_bind scanned authors_of].
    destruct (contains AUTHOR_END_MARK (strip f)).
    + rewrite app_nil_r. do 2 f_equal. lia.
    + replace (pre ++ f :: rest) with ((pre ++ [f]) ++ rest) by (by rewrite <- app_assoc).
      replace (Z.of_nat (length pre) + 1) with (Z.of_nat (length (pre ++ [f])))
        by (rewrite length_app; cbn; lia).
      destruct (_ && _).
      * rewrite IH by (cbn in Hn; lia). rewrite <- app_assoc. cbn.
        do 2 f_equal. rewrite length_app; cbn; lia.
      * rewrite IH by (cbn in Hn; lia). do 2 f_equal. rewrite length_app; cbn; lia.
Qed.

Lemma date_loop_spec pre rest d n :
  (length rest ≤ n)%nat →
  date_loop (pre ++ rest) d n (Z.of_nat (length pre))
  = Ok (Z.of_nat (length pre + date_offset d rest)).
Proof.
  revert pre n. induction rest as [|f rest IH]; intros pre n Hn.
  - rewrite app_nil_r, Nat.add_0_r. destruct n; cbn [date_loop]; [done|].
    by rewrite bool_decide_eq_false_2 by (intros H; by apply H).
  - destruct n as [|n]; [cbn in Hn; lia|]. cbn [date_loop].
    rewrite bool_decide_eq_true_2 by (rewrite length_app; cbn; lia).
    rewrite (py_index_nat _ _ f) by (by rewrite list_lookup_middle).
    cbn [mbind result_bind date_offset].
    destruct (bool_decide (strip f ≠ d)).
    + replace (pre ++ f :: rest) with ((pre ++ [f]) ++ rest) by (by rewrite <- app_assoc).
      replace (Z.of_nat (length pre) + 1) with (Z.of_nat (length (pre ++ [f])))
        by (rewrite length_app; cbn; lia).
      rewrite IH by (cbn in Hn; lia). f_equal. rewrite length_app; cbn; lia.
    + f_equal. lia.
Qed.

Lemma scanned_le frags : (scanned frags ≤ length frags)%nat.
Proof.
  induction frags as [|f rest IH]; cbn; [lia|].
  destruct (contains _ _); lia.
Qed.

Lemma scanned_pos f rest : (1 ≤ scanned (f :: rest))%nat.
Proof. cbn. destruct (contains _ _); lia. Qed.

Lemma date_offset_le d frags : (date_offset d frags ≤ length frags)%nat.
Proof.
  induction frags as [|f rest IH]; cbn; [lia|].
  destruct (bool_decide _); lia.
Qed.

Lemma post_marker_drop frags : post_marker frags = drop (scanned frags) frags.
Proof.
  induction frags as [|f rest IH]; cbn; [done|].
  destruct (contains _ _); done.
Qed.

Lemma date_index_le sub d : (date_index sub d ≤ length sub)%nat.
Proof.
  unfold date_index. rewrite post_marker_drop.
  pose proof (date_offset_le d (drop (scanned sub) sub)) as H.
  rewrite length_drop in H. pose proof (scanned_le sub). lia.
Qed.

(** What [_parse_author_and_publisher] returns on a page that has the
    sub-title block and a date tag with a [content] attribute. *)
Lemma parse_author_and_publisher_spec html li lis meta metas content :
  xpath html AUTHORS_AND_PUBLISHER_XPATH = li :: lis →
  xpath html PUBLISHED_DATE_XPATH = meta :: metas →
  get meta (str "content") = Some content →
  _parse_author_and_publisher html
  = Ok (authors_of (itertext li), publisher_of (itertext li) (strip content)).
Proof.
  intros Hli Hmeta Hc. unfold _parse_author_and_publisher.
  rewrite Hli, Hmeta, !py_index_0. cbn [mbind result_bind].
  set (sub := itertext li).
  pose proof (author_loop_spec [] sub (length sub) [] (Nat.le_refl _)) as HA.
  cbn [app length Nat.add] in HA. change (Z.of_nat 0) with 0 in HA.
  rewrite HA. cbn [mbind result_bind]. rewrite Hc. cbn [py_strip mbind result_bind].
  set (d := strip content).
  pose proof (scanned_le sub) as Hs.
  pose proof (date_loop_spec (take (scanned sub) sub) (drop (scanned sub) sub) d
                (Z.to_nat (Z.of_nat (length sub) - Z.of_nat (scanned sub)))) as HD.
  rewrite take_drop, length_take, length_drop, Nat.min_l in HD by lia.
  rewrite HD by lia. cbn [mbind result_bind].
  rewrite <- post_marker_drop. fold (date_index sub d).
  pose proof (date_index_le sub d) as Hle.
  unfold publisher_of. fold sub d.
  destruct (decide (date_index sub d = length sub)) as [He|Hne].
  - rewrite He. rewrite !bool_decide_eq_false_2; [done | lia | intros H; by apply H].
  - rewrite !bool_decide_eq_true_2 by (done || lia).
    assert (1 ≤ date_index sub d)%nat as Hpos.
    { unfold date_index. destruct sub as [|f rest]; [cbn in *; lia|].
      pose proof (scanned_pos f rest). lia. }
    destruct (lookup_lt_is_Some_2 sub (date_index sub d - 1)%nat) as [p Hp]; [lia|].
    replace (Z.of_nat (date_index sub d) - 1) with (Z.of_nat (date_index sub d - 1)) by lia.
    rewrite (py_index_nat _ _ p Hp). cbn [mbind result_bind].
    do 2 f_equal. symmetry. exact (f_equal (default []) Hp).
Qed.

Lemma date_offset_none d frags :
  Forall (fun f => strip f ≠ d) frags → date_offset d frags = length frags.
Proof.
  induction 1 as [|f rest Hf _ IH]; cbn; [done|].
  by rewrite bool_decide_eq_true_2, IH.
Qed.

Lemma date_offset_full d frags :
  date_offset d frags = length frags → Forall (fun f => strip f ≠ d) frags.
Proof.
  induction frags as [|f rest IH]; cbn; [constructor|].
  case_bool_decide as Hf; [|discriminate]. intros [= Hlen]. constructor; auto.
Qed.

Lemma date_offset_hit d frags :
  (date_offset d frags < length frags)%nat →
  ∃ f, frags !! date_offset d frags = Some f ∧ strip f = d.
Proof.
  induction frags as [|f rest IH]; cbn; [lia|].
  case_bool_decide as Hd; intros Hlt.
  - apply IH. lia.
  - exists f. split; [done|]. by destruct (decide (strip f = d)).
Qed.

Lemma scanned_marker pre marker rest :
  Forall (fun f => contains AUTHOR_END_MARK (strip f) = false) pre →
  contains AUTHOR_END_MARK (strip marker) = true →
  scanned (pre ++ marker :: rest) = S (length pre)
  ∧ post_marker (pre ++ marker :: rest) = rest.
Proof.
  intros Hpre Hm. induction Hpre as [|f pre Hf _ IH]; cbn.
  - by rewrite Hm.
  - rewrite Hf. destruct IH as [-> ->]. done.
Qed.

Lemma authors_of_trimmed frags :
  Forall (fun a => ∃ f, f ∈ frags ∧ a = strip f) (authors_of frags).
Proof.
  induction frags as [|f rest IH]; cbn; [constructor|].
  assert (Forall (fun a => ∃ f0, f0 ∈ f :: rest ∧ a = strip f0) (authors_of rest)) as IH'.
  { eapply Forall_impl; [exact IH|]. intros a (f0 & Hin & ->).
    exists f0. split; [by right | done]. }
  destruct (contains _ _); [constructor|].
  destruct (_ && _); [|done].
  constructor; [|done]. exists f. split; [by left | done].
Qed.

(** C3: on the fragments ["Jane Doe", "(지은이)", "Acme Press", "2020-01-01"]
    with date string "2020-01-01" the heuristic returns authors ["Jane Doe"]
    and publisher "Acme Press"; and whenever no fragment after the marker
    fragment has the date string as its trimmed text, the publisher is the
    empty string. *)
Theorem parse_author_and_publisher_heuristic :
  (∀ html li lis meta metas content,
     xpath html AUTHORS_AND_PUBLISHER_XPATH = li :: lis →
     itertext li
       = [str "Jane Doe"; AUTHOR_END_MARK; str "Acme Press"; str "2020-01-01"] →
     xpath html PUBLISHED_DATE_XPATH = meta :: metas →
     get meta (str "content") = Some content →
     strip content = str "2020-01-01" →
     _parse_author_and_publisher html = Ok ([str "Jane Doe"], str "Acme Press"))
  ∧ (∀ html li lis meta metas content,
       xpath html AUTHORS_AND_PUBLISHER_XPATH = li :: lis →
       xpath html PUBLISHED_DATE_XPATH = meta :: metas →
       get meta (str "content") = Some content →
       Forall (fun f => strip f ≠ strip content) (post_marker (itertext li)) →
       ∃ authors, _parse_author_and_publisher html = Ok (authors, str "")).
Proof.
  split.
  - intros html li lis meta metas content Hli Hsub Hmeta Hc Hd.
    rewrite (parse_author_and_publisher_spec _ _ _ _ _ _ Hli Hmeta Hc), Hsub, Hd.
    by vm_compute.
  - intros html li lis meta metas content Hli Hmeta Hc Hnone.
    rewrite (parse_author_and_publisher_spec _ _ _ _ _ _ Hli Hmeta Hc).
    eexists. apply f_equal, (f_equal (pair _)). unfold publisher_of, date_index.
    rewrite (date_offset_none _ _ Hnone), post_marker_drop, length_drop.
    pose proof (scanned_le (itertext li)).
    rewrite bool_decide_eq_false_2; [done | lia].
Qed.

Lemma parse_author_and_publisher_heuristic_witness :
  _parse_author_and_publisher Samples.detail_page
    = Ok ([str "Jane Doe"], str "Acme Press")
  ∧ ∃ authors,
      _parse_author_and_publisher
        (Samples.page_of [Samples.meta "itemprop" "datePublished" "2021-05-05"]
                         [Samples.author_block])
      = Ok (authors, str "").
Proof.
  split.
  - eapply (proj1 parse_author_and_publisher_heuristic
              Samples.detail_page Samples.author_block [] Samples.date_published []
              (str "2020-01-01")); by vm_compute.
  - eapply (proj2 parse_author_and_publisher_heuristic _ Samples.author_block []
              (Samples.meta "itemprop" "datePublished" "2021-05-05") []
              (str "2021-05-05")); try by vm_compute.
    vm_compute. repeat constructor; discriminate.
Defined.

(** C10: the publisher is a fragment as it stands in the page, not its
    trimmed text, while the date comparison that finds it and the author
    names use trimmed text; when the fragment right after the marker fragment
    is the date, the publisher is the marker fragment itself. *)
Theorem publisher_is_untrimmed_fragment :
  (∀ html li lis meta metas content,
     xpath html AUTHORS_AND_PUBLISHER_XPATH = li :: lis →
     xpath html PUBLISHED_DATE_XPATH = meta :: metas →
     get meta (str "content") = Some content →
     ∃ authors publisher,
       _parse_author_and_publisher html = Ok (authors, publisher)
       ∧ Forall (fun a => ∃ f, f ∈ itertext li ∧ a = strip f) authors
       ∧ (publisher = str ""
            ∧ Forall (fun f => strip f ≠ strip content) (post_marker (itertext li))
          ∨ ∃ k date,
              itertext li !! k = Some publisher
              ∧ itertext li !! S k = Some date
              ∧ strip date = strip content))
  ∧ (∀ html li lis meta metas content pre marker date rest,
       xpath html AUTHORS_AND_PUBLISHER_XPATH = li :: lis →
       xpath html PUBLISHED_DATE_XPATH = meta :: metas →
       get meta (str "content") = Some content →
       itertext li = pre ++ marker :: date :: rest →
       Forall (fun f => contains AUTHOR_END_MARK (strip f) = false) pre →
       contains AUTHOR_END_MARK (strip marker) = true →
       strip date = strip content →
       ∃ authors, _parse_author_and_publisher html = Ok (authors, marker))
  ∧ (∃ html authors publisher,
       _parse_author_and_publisher html = Ok (authors, publisher)
       ∧ strip publisher ≠ publisher).
Proof.
  split; [|split].
  - intros html li lis meta metas content Hli Hmeta Hc.
    rewrite (parse_author_and_publisher_spec _ _ _ _ _ _ Hli Hmeta Hc).
    set (sub := itertext li). set (d := strip content).
    exists (authors_of sub), (publisher_of sub d).
    split; [done|]. split; [apply authors_of_trimmed|].
    unfold publisher_of. pose proof (date_index_le sub d) as Hle.
    pose proof (scanned_le sub) as Hs.
    case_bool_decide as Hi.
    + right. unfold date_index in *. rewrite post_marker_drop in *.
      destruct (date_offset_hit d (drop (scanned sub) sub)) as (f & Hf & Hstrip).
      { rewrite length_drop. lia. }
      rewrite lookup_drop in Hf.
      assert (1 ≤ scanned sub)%nat as Hpos.
      { destruct sub as [|f0 rest]; [cbn in *; lia | apply scanned_pos]. }
      set (j := (scanned sub + date_offset d (drop (scanned sub) sub))%nat) in *.
      destruct (lookup_lt_is_Some_2 sub (j - 1)%nat) as [p Hp]; [lia|].
      exists (j - 1)%nat, f. replace (S (j - 1)) with j by lia.
      split; [|done]. exact (eq_trans Hp (f_equal (fun o => Some (default [] o)) (eq_sym Hp))).
    + left. split; [done|]. apply date_offset_full.
      assert (date_index sub d = length sub) as He by (by destruct (decide (date_index sub d = length sub))).
      unfold date_index in He. rewrite post_marker_drop in *. rewrite length_drop. lia.
  - intros html li lis meta metas content pre marker date rest
           Hli Hmeta Hc Hsub Hpre Hm Hd.
    rewrite (parse_author_and_publisher_spec _ _ _ _ _ _ Hli Hmeta Hc), Hsub.
    eexists. apply f_equal, (f_equal (pair _)). unfold publisher_of, date_index.
    destruct (scanned_marker pre marker (date :: rest) Hpre Hm) as [-> ->].
    cbn [date_offset].
    rewrite (bool_decide_eq_false_2 (strip date ≠ strip content)) by (intros H; by apply H).
    rewrite bool_decide_eq_true_2 by (rewrite length_app; cbn; lia).
    replace (S (length pre) + 0 - 1)%nat with (length pre) by lia.
    by rewrite list_lookup_middle.
  - exists Samples.spaced_page. eexists _, _. split; [by vm_compute|].
    vm_compute. discriminate.
Qed.

Lemma publisher_is_untrimmed_fragment_witness :
  ∃ authors,
    _parse_author_and_publisher Samples.dateless_publisher_page
    = Ok (authors, str " " ++ AUTHOR_END_MARK ++ str " ").
Proof.
  eapply (proj1 (proj2 publisher_is_untrimmed_fragment)
            Samples.dateless_publisher_page Samples.dateless_publisher_block []
            Samples.date_published [] (str "2020-01-01")
            [str "Jane Doe"] _ (str "2020-01-01") []); try by vm_compute.
  repeat constructor.
Defined.

(** ** The item fetcher *)

(** [float] is handed the list [xpath] returned, which it rejects: the rating
    block raises on every page. *)
Lemma rating_block_raises html : rating_block html = Raise TypeError.
Proof. reflexivity. Qed.

(** The outer block on a page that has every tag it indexes. *)
Lemma fetch_book_block_complete html id url generic_cover
      title_tag li cover_tag description_tag isbn_tag date_tag
      title_tags lis cover_tags description_tags isbn_tags date_tags date :
  xpath html TITLE_XPATH = title_tag :: title_tags →
  xpath html AUTHORS_AND_PUBLISHER_XPATH = li :: lis →
  xpath html COVER_XPATH = cover_tag :: cover_tags →
  xpath html DESCRIPTION_XPATH = description_tag :: description_tags →
  xpath html ISBN_XPATH = isbn_tag :: isbn_tags →
  xpath html PUBLISHED_DATE_XPATH = date_tag :: date_tags →
  get date_tag (str "content") = Some date →
  fetch_book_block html id url generic_cover
  = Ok {| record_id := id;
          title := get title_tag (str "content");
          authors := authors_of (itertext li);
          url := url;
          source := {| source_id := provider_id;
                       source_description := DESCRIPTION;
                       source_link := META_URL |};
          cover := py_or (get cover_tag (str "content")) generic_cover;
          description := get description_tag (str "content");
          identifiers := {[ str "isbn" := get isbn_tag (str "content") ]};
          publisher := publisher_of (itertext li) (strip date);
          publishedDate := Some date;
          rating := 0 |}.
Proof.
  intros Ht Hli Hc Hd Hi Hp Hdate. unfold fetch_book_block, _get_description.
  rewrite (parse_author_and_publisher_spec _ _ _ _ _ _ Hli Hp Hdate).
  rewrite Ht, Hc, Hd, Hi, Hp, !py_index_0, rating_block_raises.
  cbn [mbind result_bind]. rewrite Hdate. reflexivity.
Qed.

(** The outer block raises as soon as one of the tags is missing. *)
Lemma fetch_book_block_incomplete html id url generic_cover :
  xpath html TITLE_XPATH = []
  ∨ xpath html AUTHORS_AND_PUBLISHER_XPATH = []
  ∨ xpath html COVER_XPATH = []
  ∨ xpath html DESCRIPTION_XPATH = []
  ∨ xpath html ISBN_XPATH = []
  ∨ xpath html PUBLISHED_DATE_XPATH = []
  ∨ (∃ date_tag date_tags,
       xpath html PUBLISHED_DATE_XPATH = date_tag :: date_tags
       ∧ get date_tag (str "content") = None) →
  ∃ e, fetch_book_block html id url generic_cover = Raise e.
Proof.
  intros H. unfold fetch_book_block, _get_description.
  rewrite !py_index_0.
  destruct (xpath html TITLE_XPATH) as [|t ts]; [by eexists|].
  cbn [mbind result_bind].
  destruct (_parse_author_and_publisher html) as [[authors publisher]|e] eqn:Hparse;
    [|by eexists].
  cbn [mbind result_bind].
  destruct (xpath html COVER_XPATH) as [|c cs]; [by eexists|].
  destruct (xpath html DESCRIPTION_XPATH) as [|d ds]; [by eexists|].
  destruct (xpath html ISBN_XPATH) as [|i iss]; [by eexists|].
  destruct (xpath html PUBLISHED_DATE_XPATH) as [|p ps] eqn:Hp; [by eexists|].
  exfalso. unfold _parse_author_and_publisher in Hparse.
  rewrite Hp, !py_index_0 in Hparse.
  destruct (xpath html AUTHORS_AND_PUBLISHER_XPATH) as [|li lis]; [discriminate|].
  cbn [mbind result_bind] in Hparse.
  destruct (author_loop _ _ _ _) as [[i0 a0]|]; [|discriminate].
  cbn [mbind result_bind] in Hparse.
  destruct H as [H|[H|[H|[H|[H|[H|(p' & ps' & [= <- <-] & Hnone)]]]]]]; try discriminate.
  rewrite Hnone in Hparse. discriminate.
Qed.

(** Conversely a record comes only from a page that has every tag. *)
Lemma fetch_book_block_inv html id url generic_cover record :
  fetch_book_block html id url generic_cover = Ok record →
  ∃ title_tag li cover_tag description_tag isbn_tag date_tag
    title_tags lis cover_tags description_tags isbn_tags date_tags date,
    xpath html TITLE_XPATH = title_tag :: title_tags
    ∧ xpath html AUTHORS_AND_PUBLISHER_XPATH = li :: lis
    ∧ xpath html COVER_XPATH = cover_tag :: cover_tags
    ∧ xpath html DESCRIPTION_XPATH = description_tag :: description_tags
    ∧ xpath html ISBN_XPATH = isbn_tag :: isbn_tags
    ∧ xpath html PUBLISHED_DATE_XPATH = date_tag :: date_tags
    ∧ get date_tag (str "content") = Some date.
Proof.
  intros Hok.
  destruct (xpath html TITLE_XPATH) as [|t ts] eqn:Ht.
  { destruct (fetch_book_block_incomplete html id url generic_cover) as [e He];
      [tauto | congruence]. }
  destruct (xpath html AUTHORS_AND_PUBLISHER_XPATH) as [|li lis] eqn:Hli.
  { destruct (fetch_book_block_incomplete html id url generic_cover) as [e He];
      [tauto | congruence]. }
  destruct (xpath html COVER_XPATH) as [|c cs] eqn:Hc.
  { destruct (fetch_book_block_incomplete html id url generic_cover) as [e He];
      [tauto | congruence]. }
  destruct (xpath html DESCRIPTION_XPATH) as [|d ds] eqn:Hd.
  { destruct (fetch_book_block_incomplete html id url generic_cover) as [e He];
      [tauto | congruence]. }
  destruct (xpath html ISBN_XPATH) as [|i iss] eqn:Hi.
  { destruct (fetch_book_block_incomplete html id url generic_cover) as [e He];
      [tauto | congruence]. }
  destruct (xpath html PUBLISHED_DATE_XPATH) as [|p ps] eqn:Hp.
  { destruct (fetch_book_block_incomplete html id url generic_cover) as [e He];
      [tauto | congruence]. }
  destruct (get p (str "content")) as [date|] eqn:Hdate.
  - by eexists t, li, c, d, i, p, ts, lis, cs, ds, iss, ps, date.
  - destruct (fetch_book_block_incomplete html id url generic_cover) as [e He];
      [|congruence].
    do 6 right. by exists p, ps.
Qed.

Lemma http_get_eq web url :
  _http_get web url
  = ([HttpGet url], Ok (match web url with Ok html => Some html | Raise _ => None end)).
Proof. unfold _http_get. by destruct (web url). Qed.

Lemma fetch_book_eq web id generic_cover :
  _fetch_book web id generic_cover
  = ([HttpGet (book_url id)], Ok (fetch_result web id generic_cover)).
Proof.
  unfold fetch_result, _fetch_book. fold (book_url id). rewrite http_get_eq.
  destruct (web (book_url id)) as [html|e]; [|reflexivity].
  unfold book_url. cbn [mbind IO_bind snd].
  by destruct (fetch_book_block html id _ generic_cover).
Qed.

Lemma fetch_result_eq web id generic_cover :
  fetch_result web id generic_cover
  = match web (book_url id) with
    | Ok html =>
        match fetch_book_block html id (book_url id) generic_cover with
        | Ok record => Some record
        | Raise _ => None
        end
    | Raise _ => None
    end.
Proof.
  unfold fetch_result, _fetch_book. fold (book_url id). rewrite http_get_eq.
  destruct (web (book_url id)) as [html|e]; [|reflexivity].
  unfold book_url. cbn [mbind IO_bind snd].
  by destruct (fetch_book_block html id _ generic_cover).
Qed.

(** A record [_fetch_book] returns was built from a page that has every
    tag, and is the full record. *)
Lemma fetch_book_record web id generic_cover record :
  (_fetch_book web id generic_cover).2 = Ok (Some record) →
  ∃ html title_tag li cover_tag description_tag isbn_tag date_tag
    title_tags lis cover_tags description_tags isbn_tags date_tags date,
    web (book_url id) = Ok html
    ∧ xpath html TITLE_XPATH = title_tag :: title_tags
    ∧ xpath html AUTHORS_AND_PUBLISHER_XPATH = li :: lis
    ∧ xpath html COVER_XPATH = cover_tag :: cover_tags
    ∧ xpath html DESCRIPTION_XPATH = description_tag :: description_tags
    ∧ xpath html ISBN_XPATH = isbn_tag :: isbn_tags
    ∧ xpath html PUBLISHED_DATE_XPATH = date_tag :: date_tags
    ∧ get date_tag (str "content") = Some date
    ∧ record
      = {| record_id := id;
           title := get title_tag (str "content");
           authors := authors_of (itertext li);
           url := book_url id;
           source := {| source_id := provider_id;
                        source_description := DESCRIPTION;
                        source_link := META_URL |};
           cover := py_or (get cover_tag (str "content")) generic_cover;
           description := get description_tag (str "content");
           identifiers := {[ str "isbn" := get isbn_tag (str "content") ]};
           publisher := publisher_of (itertext li) (strip date);
           publishedDate := Some date;
           rating := 0 |}.
Proof.
  rewrite fetch_book_eq, fetch_result_eq. cbn [snd]. intros Hrec.
  destruct (web (book_url id)) as [html|e]; [|discriminate].
  destruct (fetch_book_block html id (book_url id) generic_cover) as [r|e] eqn:Hblock;
    [|discriminate].
  injection Hrec as ->.
  destruct (fetch_book_block_inv _ _ _ _ _ Hblock)
    as (t & li & c & d & i & p & ts & lis & cs & ds & iss & ps & date
        & Ht & Hli & Hc & Hd & Hi & Hp & Hdate).
  exists html, t, li, c, d, i, p, ts, lis, cs, ds, iss, ps, date.
  repeat (split; [done|]).
  rewrite (fetch_book_block_complete _ _ _ _ _ _ _ _ _ _ _ _ _ _ _ _ _
             Ht Hli Hc Hd Hi Hp Hdate) in Hblock.
  by injection Hblock.
Qed.

(** C4 (as the code has it): [_fetch_book] always returns.  A record comes
    only from a fetched page on which the title tag, the author/publisher
    block, the description tag, the isbn tag and the date tag were found,
    the date tag with a [content]; its title, description and isbn are the
    [content] attributes of those tags, [None] when a tag has none, and its
    cover is an [og:image] content or the generic cover.  Any exception in
    the block, such as a missing [og:title] tag, gives nothing. *)
Theorem fetch_book_all_or_nothing web id generic_cover :
  (∃ outcome,
     _fetch_book web id generic_cover = ([HttpGet (book_url id)], Ok outcome))
  ∧ (∀ record,
       (_fetch_book web id generic_cover).2 = Ok (Some record) →
       ∃ html title_tag li description_tag isbn_tag date_tag
         title_tags lis description_tags isbn_tags date_tags date,
         web (book_url id) = Ok html
         ∧ xpath html TITLE_XPATH = title_tag :: title_tags
         ∧ xpath html AUTHORS_AND_PUBLISHER_XPATH = li :: lis
         ∧ xpath html DESCRIPTION_XPATH = description_tag :: description_tags
         ∧ xpath html ISBN_XPATH = isbn_tag :: isbn_tags
         ∧ xpath html PUBLISHED_DATE_XPATH = date_tag :: date_tags
         ∧ get date_tag (str "content") = Some date
         ∧ record_id record = id
         ∧ url record = book_url id
         ∧ source record = {| source_id := provider_id;
                              source_description := DESCRIPTION;
                              source_link := META_URL |}
         ∧ title record = get title_tag (str "content")
         ∧ authors record = authors_of (itertext li)
         ∧ publisher record = publisher_of (itertext li) (strip date)
         ∧ description record = get description_tag (str "content")
         ∧ identifiers record = {[ str "isbn" := get isbn_tag (str "content") ]}
         ∧ publishedDate record = Some date
         ∧ (cover record = generic_cover
            ∨ ∃ cover_tag,
                cover_tag ∈ xpath html COVER_XPATH
                ∧ get cover_tag (str "content") = Some (cover record)))
  ∧ (∀ html e,
       web (book_url id) = Ok html →
       fetch_book_block html id (book_url id) generic_cover = Raise e →
       (_fetch_book web id generic_cover).2 = Ok None)
  ∧ (∀ html,
       web (book_url id) = Ok html →
       (xpath html TITLE_XPATH = []
        ∨ xpath html AUTHORS_AND_PUBLISHER_XPATH = []
        ∨ xpath html DESCRIPTION_XPATH = []
        ∨ xpath html ISBN_XPATH = []
        ∨ xpath html PUBLISHED_DATE_XPATH = []) →
       (_fetch_book web id generic_cover).2 = Ok None).
Proof.
  split; [|split; [|split]].
  - rewrite fetch_book_eq. by eexists.
  - intros record Hrec.
    destruct (fetch_book_record web id generic_cover record Hrec)
      as (html & t & li & c & d & i & p & ts & lis & cs & ds & iss & ps & date
          & Hweb & Ht & Hli & Hc & Hd & Hi & Hp & Hdate & ->).
    exists html, t, li, d, i, p, ts, lis, ds, iss, ps, date.
    cbn [record_id url source title authors publisher description identifiers
         publishedDate cover].
    repeat (split; [done|]).
    destruct (get c (str "content")) as [s|] eqn:Hs; cbn [py_or]; [|by left].
    case_bool_decide; [by left|]. right. exists c. rewrite Hc. split; [by left | done].
  - rewrite fetch_book_eq, fetch_result_eq. cbn [snd]. intros html e -> ->.
    reflexivity.
  - rewrite fetch_book_eq, fetch_result_eq. cbn [snd]. intros html -> Hmissing.
    destruct (fetch_book_block_incomplete html id (book_url id) generic_cover)
      as [e ->]; [|reflexivity].
    destruct Hmissing as [H|[H|[H|[H|H]]]]; auto 10.
Qed.

Lemma fetch_book_all_or_nothing_witness :
  (_fetch_book (fun _ => Ok Samples.untitled_page) (str "101") (str "cover.svg")).2
  = Ok None.
Proof.
  eapply (proj2 (proj2 (proj2 (fetch_book_all_or_nothing
            (fun _ => Ok Samples.untitled_page) (str "101") (str "cover.svg"))))
            Samples.untitled_page); [by vm_compute | left; by vm_compute].
Defined.

(** C4 as the claim words it fails: a page whose title, description and isbn
    tags carry no [content] still yields a record, with these three fields
    [None]. *)
Lemma fetch_book_partial_record :
  ¬ (∀ record,
       (_fetch_book (fun _ => Ok MoreSamples.bare_page) (str "7") (str "cover.svg")).2
       = Ok (Some record) →
       title record ≠ None
       ∧ description record ≠ None
       ∧ identifiers record !! str "isbn" ≠ Some None).
Proof.
  intros H.
  destruct (_fetch_book (fun _ => Ok MoreSamples.bare_page) (str "7") (str "cover.svg")).2
    as [[record|]|e] eqn:Hrec; try (by vm_compute in Hrec).
  destruct (H record eq_refl) as (Ht & _).
  apply Ht. vm_compute in Hrec. by injection Hrec as <-.
Qed.

(** Whatever the page, an emitted record carries rating 0. *)
Lemma fetch_book_rating_zero web id generic_cover record :
  (_fetch_book web id generic_cover).2 = Ok (Some record) → rating record = 0.
Proof.
  intros H.
  destruct (fetch_book_record web id generic_cover record H)
    as (? & ? & ? & ? & ? & ? & ? & ? & ? & ? & ? & ? & ? & ? & H').
  decompose [and] H'. by subst record.
Qed.

(** C1: on a complete detail page whose rating anchor reads "8.5"
    [_fetch_book] emits a record, and its rating is 0, where scaling 8.5 by
    [int(value/2 + 0.5)] gives 4; on the same page without a rating anchor the
    record is emitted with rating 0 as well. *)
Theorem fetch_book_rating_of_8_5 :
  text <$> xpath Samples.detail_page RAITING10_XPATH = [Some (str "8.5")]
  ∧ (∃ record,
       _fetch_book (fun _ => Ok Samples.detail_page) (str "101") (str "cover.svg")
       = ([HttpGet (book_url (str "101"))], Ok (Some record))
       ∧ rating record = 0)
  ∧ scaled_rating (17 # 2) = 4
  ∧ xpath Samples.unrated_page RAITING10_XPATH = []
  ∧ (∃ record,
       _fetch_book (fun _ => Ok Samples.unrated_page) (str "103") (str "cover.svg")
       = ([HttpGet (book_url (str "103"))], Ok (Some record))
       ∧ rating record = 0).
Proof.
  split; [by vm_compute|]. split; [|split; [by vm_compute|split; [by vm_compute|]]].
  - eexists. split; [by vm_compute | reflexivity].
  - eexists. split; [by vm_compute | reflexivity].
Qed.

(** Past the [float] call the block would still part from the formula of the
    specification: it divides with [//]. *)
Example floor_division_rounds_down :
  (v ← py_floordiv_2 (VFloat 9); v ← py_add_half v; py_int v) = Ok 4
  ∧ scaled_rating 9 = 5.
Proof. split; reflexivity. Qed.

(** A page without the cover tag yields no record. *)
Lemma fetch_book_cover_tag_absent web id generic_cover html :
  web (book_url id) = Ok html →
  xpath html COVER_XPATH = [] →
  _fetch_book web id generic_cover = ([HttpGet (book_url id)], Ok None).
Proof.
  intros Hweb Hc. rewrite fetch_book_eq, fetch_result_eq, Hweb.
  destruct (fetch_book_block_incomplete html id (book_url id) generic_cover)
    as [e ->]; [tauto | reflexivity].
Qed.

(** The fallback the code has: a cover tag whose [content] is missing or
    empty is replaced by [generic_cover]. *)
Lemma fetch_book_cover_blank web id generic_cover record html cover_tag cover_tags :
  web (book_url id) = Ok html →
  xpath html COVER_XPATH = cover_tag :: cover_tags →
  get cover_tag (str "content") = None ∨ get cover_tag (str "content") = Some [] →
  (_fetch_book web id generic_cover).2 = Ok (Some record) →
  cover record = generic_cover.
Proof.
  intros Hweb Hc Hblank H.
  destruct (fetch_book_record web id generic_cover record H)
    as (html' & ? & ? & c & ? & ? & ? & ? & ? & cs & ? & ? & ? & ? & H').
  decompose [and] H'. subst record. cbn [cover].
  assert (html' = html) as -> by congruence.
  assert (c = cover_tag) as -> by congruence.
  by destruct Hblank as [-> | ->].
Qed.

(** C2: on a detail page that has every required tag but no [og:image] tag,
    [_fetch_book] returns nothing instead of a record with the generic
    cover. *)
Theorem fetch_book_without_cover_tag :
  xpath Samples.coverless_page COVER_XPATH = []
  ∧ length (xpath Samples.coverless_page TITLE_XPATH) = 1%nat
  ∧ length (xpath Samples.coverless_page AUTHORS_AND_PUBLISHER_XPATH) = 1%nat
  ∧ length (xpath Samples.coverless_page DESCRIPTION_XPATH) = 1%nat
  ∧ length (xpath Samples.coverless_page ISBN_XPATH) = 1%nat
  ∧ length (xpath Samples.coverless_page PUBLISHED_DATE_XPATH) = 1%nat
  ∧ _fetch_book (fun _ => Ok Samples.coverless_page) (str "104") (str "cover.svg")
    = ([HttpGet (book_url (str "104"))], Ok None)
  ∧ ∃ record,
      _fetch_book (fun _ => Ok Samples.blank_cover_page) (str "104") (str "cover.svg")
      = ([HttpGet (book_url (str "104"))], Ok (Some record))
      ∧ cover record = str "cover.svg".
Proof.
  repeat (split; [by vm_compute|]).
  eexists. split; by vm_compute.
Qed.

(** ** Query normalisation *)

Lemma encode_codepoint_scalar c :
  scalar_value c → ∃ bs, encode_codepoint c = Some bs.
Proof.
  intros Hc. unfold encode_codepoint.
  destruct (N.ltb_spec c 128); [by eexists|].
  destruct (N.ltb_spec c 2048); [by eexists|].
  destruct (N.leb_spec 55296 c); destruct (N.leb_spec c 57343); cbn [andb];
    try (unfold scalar_value in Hc; lia).
  all: destruct (N.ltb_spec c 65536); [by eexists|].
  all: destruct (N.ltb_spec c 1114112); [by eexists|].
  all: unfold scalar_value in Hc; lia.
Qed.

Lemma encode_utf8_total s :
  Forall scalar_value s → ∃ bs, encode_utf8 s = Ok bs.
Proof.
  induction 1 as [|c s Hc _ [bs IH]]; [by eexists|].
  destruct (encode_codepoint_scalar c Hc) as [b Hb].
  exists (b ++ bs). cbn [encode_utf8]. by rewrite Hb, IH.
Qed.

Lemma encode_utf8_surrogate c s :
  (55296 ≤ c ≤ 57343)%N → encode_utf8 (c :: s) = Raise UnicodeEncodeError.
Proof.
  intros Hc. cbn [encode_utf8]. unfold encode_codepoint.
  destruct (N.ltb_spec c 128); [lia|].
  destruct (N.ltb_spec c 2048); [lia|].
  destruct (N.leb_spec 55296 c); [|lia].
  destruct (N.leb_spec c 57343); [|lia]. reflexivity.
Qed.

(** [quote] yields ASCII only. *)
Lemma quote_ascii bs : Forall (fun c => (c < 128)%N) (quote bs).
Proof.
  unfold quote. induction bs as [|b bs IH]; cbn; [constructor|].
  apply Forall_app. split; [|exact IH].
  destruct b; vm_compute; repeat constructor.
Qed.

Lemma comprehension_quote tokens encoded :
  Forall2 (fun t bs => encode_utf8 t = Ok bs) tokens encoded →
  comprehension (fun t => quote <$> encode_utf8 t) tokens = Ok (quote <$> encoded).
Proof.
  induction 1 as [|t bs tokens encoded Ht _ IH]; [done|].
  cbn [comprehension]. by rewrite Ht, IH.
Qed.

Lemma encode_all tokens :
  Forall (Forall scalar_value) tokens →
  ∃ encoded, Forall2 (fun t bs => encode_utf8 t = Ok bs) tokens encoded.
Proof.
  induction 1 as [|t tokens Ht _ [encoded IH]]; [by exists []|].
  destruct (encode_utf8_total t Ht) as [bs Hbs].
  exists (bs :: encoded). by constructor.
Qed.

Example quote_korean :
  quote <$> encode_utf8 AUTHOR_END_MARK = Ok (str "%28%EC%A7%80%EC%9D%80%EC%9D%B4%29").
Proof. reflexivity. Qed.

(** ** Search-id extraction *)

Lemma itemid_comprehension (items : list node) :
  comprehension
    (fun element =>
       match attrib element !! str "itemid" with
       | Some v => Ok v
       | None => Raise KeyError
       end)
    (filter (fun element => is_Some (attrib element !! str "itemid")) items)
  = Ok (omap (fun element => attrib element !! str "itemid") items).
Proof.
  induction items as [|e items IH]; [done|].
  rewrite filter_cons. cbn [omap list_omap].
  destruct (attrib e !! str "itemid") as [v|] eqn:He.
  - rewrite decide_True by (by eexists). cbn [comprehension].
    rewrite He, IH. done.
  - rewrite decide_False by (by intros [? ?]). exact IH.
Qed.

Lemma itemid_Forall2 (items : list node) :
  Forall2 (fun element id => attrib element !! str "itemid" = Some id)
    (filter (fun element => is_Some (attrib element !! str "itemid")) items)
    (omap (fun element => attrib element !! str "itemid") items).
Proof.
  induction items as [|e items IH]; [constructor|].
  rewrite filter_cons. cbn [omap list_omap].
  destruct (attrib e !! str "itemid") as [v|] eqn:He.
  - rewrite decide_True by (by eexists). by constructor.
  - by rewrite decide_False by (by intros [? ?]).
Qed.

Lemma search_book_id_eq web query :
  _search_book_id web query
  = ([HttpGet (SEARCH_URL ++ query)],
     Ok (match web (SEARCH_URL ++ query) with
         | Ok html =>
             Some (omap (fun element => attrib element !! str "itemid")
                        (take 10 (xpath html ITEM_XPATH)))
         | Raise _ => None
         end)).
Proof.
  unfold _search_book_id. rewrite http_get_eq.
  destruct (web (SEARCH_URL ++ query)) as [html|e]; [|reflexivity].
  cbn [mbind IO_bind]. unfold lift. rewrite itemid_comprehension. reflexivity.
Qed.

(** C7: on a search page that was fetched, [_search_book_id] returns at most
    ten identifiers; they are the [itemid] attributes of those among the
    first ten result boxes that have one, in page order, the others being
    skipped. *)
Theorem search_book_id_first_ten web query html :
  web (SEARCH_URL ++ query) = Ok html →
  ∃ ids kept,
    _search_book_id web query = ([HttpGet (SEARCH_URL ++ query)], Ok (Some ids))
    ∧ (length ids ≤ 10)%nat
    ∧ kept = filter (fun element => is_Some (attrib element !! str "itemid"))
                    (take 10 (xpath html ITEM_XPATH))
    ∧ kept `sublist_of` xpath html ITEM_XPATH
    ∧ Forall2 (fun element id => attrib element !! str "itemid" = Some id) kept ids
    ∧ (∀ id, id ∈ ids →
         ∃ element, element ∈ take 10 (xpath html ITEM_XPATH)
                    ∧ attrib element !! str "itemid" = Some id).
Proof.
  intros Hweb. rewrite search_book_id_eq, Hweb.
  set (items := take 10 (xpath html ITEM_XPATH)).
  exists (omap (fun element => attrib element !! str "itemid") items),
         (filter (fun element => is_Some (attrib element !! str "itemid")) items).
  pose proof (itemid_Forall2 items) as HF.
  split; [done|]. split; [|split; [done|split; [|split; [done|]]]].
  - rewrite <- (Forall2_length _ _ _ HF).
    etrans; [apply length_filter|]. unfold items. rewrite length_take. lia.
  - etrans; [apply sublist_filter; apply _ | apply sublist_take].
  - intros id Hid. by apply list_elem_of_omap in Hid.
Qed.

Lemma search_book_id_first_ten_witness :
  ∃ ids kept,
    _search_book_id Samples.site (str "A+Book")
    = ([HttpGet (SEARCH_URL ++ str "A+Book")], Ok (Some ids))
    ∧ (length ids ≤ 10)%nat
    ∧ kept = filter (fun element => is_Some (attrib element !! str "itemid"))
                    (take 10 (xpath Samples.search_page ITEM_XPATH))
    ∧ kept `sublist_of` xpath Samples.search_page ITEM_XPATH
    ∧ Forall2 (fun element id => attrib element !! str "itemid" = Some id) kept ids
    ∧ (∀ id, id ∈ ids →
         ∃ element, element ∈ take 10 (xpath Samples.search_page ITEM_XPATH)
                    ∧ attrib element !! str "itemid" = Some id).
Proof.
  apply (search_book_id_first_ten Samples.site (str "A+Book") Samples.search_page).
  by vm_compute.
Defined.

Example search_book_id_sample :
  _search_book_id Samples.site (str "A+Book")
  = ([HttpGet (SEARCH_URL ++ str "A+Book")],
     Ok (Some [str "101"; str "103"; str "104"; str "105"; str "106";
               str "107"; str "108"; str "109"; str "110"])).
Proof. by vm_compute. Qed.

(** ** The search call *)

Lemma submit_all_eq web ids generic_cover :
  submit_all web ids generic_cover
  = (HttpGet <$> (book_url <$> ids),
     Ok ((fun id => fetch_result web id generic_cover) <$> ids)).
Proof.
  induction ids as [|id ids IH]; [reflexivity|].
  cbn [submit_all]. rewrite fetch_book_eq, IH.
  cbn [mbind IO_bind mret IO_ret fmap list_fmap app]. by rewrite app_nil_r.
Qed.

Lemma length_omap_id {A} (l : list (option A)) :
  (length (omap (fun r => r) l) + length (filter (fun r => r = None) l) = length l)%nat.
Proof.
  induction l as [|[a|] l IH]; [done| |].
  - rewrite filter_cons, decide_False by done. cbn [omap list_omap length]. lia.
  - rewrite filter_cons, decide_True by done. cbn [omap list_omap length]. lia.
Qed.

(** What an active provider returns. *)
Lemma search_active get_title_tokens web as_completed self query generic_cover locale
      log query' :
  active self = true →
  _parse_query get_title_tokens query = (log, Ok query') →
  search get_title_tokens web as_completed self query generic_cover locale
  = match web (SEARCH_URL ++ query') with
    | Ok html =>
        let ids := omap (fun element => attrib element !! str "itemid")
                        (take 10 (xpath html ITEM_XPATH)) in
        match ids with
        | [] => (log ++ [HttpGet (SEARCH_URL ++ query'); Stdout (str "No book found")],
                 Ok None)
        | _ :: _ =>
            (log ++ HttpGet (SEARCH_URL ++ query') :: (HttpGet <$> (book_url <$> ids)),
             Ok (Some (omap (fun r => r)
                            (as_completed
                               ((fun id => fetch_result web id generic_cover) <$> ids)))))
        end
    | Raise _ =>
        (log ++ [HttpGet (SEARCH_URL ++ query'); Stdout (str "No book found")], Ok None)
    end.
Proof.
  intros Hactive Hparse. unfold search. rewrite Hactive, Hparse.
  cbn [mbind IO_bind]. rewrite search_book_id_eq.
  destruct (web (SEARCH_URL ++ query')) as [html|e]; [|reflexivity].
  cbn [mbind IO_bind].
  destruct (omap _ _) as [|id ids] eqn:Hids; [reflexivity|].
  cbn [py_not default]. rewrite submit_all_eq. cbn [mbind IO_bind mret IO_ret].
  by rewrite app_nil_r.
Qed.

(** A failed search and a search without matches end the same way. *)
Lemma search_no_book get_title_tokens web as_completed self query generic_cover locale
      log query' :
  active self = true →
  _parse_query get_title_tokens query = (log, Ok query') →
  (_search_book_id web query').2 = Ok None
  ∨ (_search_book_id web query').2 = Ok (Some []) →
  search get_title_tokens web as_completed self query generic_cover locale
  = (log ++ [HttpGet (SEARCH_URL ++ query'); Stdout (str "No book found")], Ok None).
Proof.
  intros Hactive Hparse Hids.
  rewrite (search_active _ _ _ _ _ _ _ _ _ Hactive Hparse).
  rewrite search_book_id_eq in Hids. cbn [snd] in Hids.
  destruct (web (SEARCH_URL ++ query')) as [html|e]; [|reflexivity].
  cbn zeta. destruct (omap _ _); [reflexivity|].
  destruct Hids as [[=]|[=]].
Qed.

(** C5: when the search page cannot be fetched [_search_book_id] returns
    [None], which is not the empty list it returns for a page without
    matches; [search] answers both with [None] after printing the same line,
    so the caller cannot tell them apart. *)
Theorem failed_search_is_not_told_apart
        get_title_tokens as_completed self query generic_cover locale
        log query' web_down web_empty e :
  active self = true →
  _parse_query get_title_tokens query = (log, Ok query') →
  web_down (SEARCH_URL ++ query') = Raise e →
  (_search_book_id web_empty query').2 = Ok (Some []) →
  (_search_book_id web_down query').2 = Ok None
  ∧ (_search_book_id web_down query').2 ≠ (_search_book_id web_empty query').2
  ∧ search get_title_tokens web_down as_completed self query generic_cover locale
    = (log ++ [HttpGet (SEARCH_URL ++ query'); Stdout (str "No book found")], Ok None)
  ∧ search get_title_tokens web_empty as_completed self query generic_cover locale
    = search get_title_tokens web_down as_completed self query generic_cover locale.
Proof.
  intros Hactive Hparse Hdown Hempty.
  assert ((_search_book_id web_down query').2 = Ok None) as Hnone.
  { rewrite search_book_id_eq, Hdown. reflexivity. }
  split; [done|]. split; [by rewrite Hnone, Hempty|].
  rewrite (search_no_book _ web_down _ _ _ _ _ _ _ Hactive Hparse) by (by left).
  rewrite (search_no_book _ web_empty _ _ _ _ _ _ _ Hactive Hparse) by (by right).
  done.
Qed.

Lemma failed_search_is_not_told_apart_witness :
  search Samples.tokens Samples.site (@rev _) {| active := true |}
         (str "nothing") (str "cover.svg") (str "en")
  = search Samples.tokens Samples.offline (@rev _) {| active := true |}
           (str "nothing") (str "cover.svg") (str "en").
Proof.
  eapply (failed_search_is_not_told_apart Samples.tokens (@rev _) {| active := true |}
            (str "nothing") (str "cover.svg") (str "en")
            [Tokenize (str "nothing") false] (str "nothing")
            Samples.offline Samples.site HTTPError); by vm_compute.
Defined.

Lemma omap_id_fmap {A B} (f : A → option B) (l : list A) :
  omap (fun r => r) (f <$> l) = omap f l.
Proof.
  induction l as [|a l IH]; [done|].
  cbn [fmap list_fmap omap list_omap]. destruct (f a); by rewrite <- IH.
Qed.

Lemma filter_None_fmap {A B} (f : A → option B) (l : list A) :
  length (filter (fun r => r = None) (f <$> l))
  = length (filter (fun a => f a = None) l).
Proof.
  induction l as [|a l IH]; [done|].
  cbn [fmap list_fmap]. rewrite !filter_cons.
  destruct (decide (f a = None)); cbn [length]; by rewrite <- IH.
Qed.

(** C8: for a non-empty list of ids [search] returns the records of the ids
    whose task produced one, in the order the tasks complete: a permutation
    of the successful records, whose number is the number of ids less the
    number of failed ids. *)
Theorem search_collects_successful_records
        get_title_tokens web as_completed self query generic_cover locale
        log query' ids :
  (∀ futures, as_completed futures ≡ₚ futures) →
  active self = true →
  _parse_query get_title_tokens query = (log, Ok query') →
  (_search_book_id web query').2 = Ok (Some ids) →
  ids ≠ [] →
  ∃ records,
    (search get_title_tokens web as_completed self query generic_cover locale).2
    = Ok (Some records)
    ∧ records ≡ₚ omap (fun id => fetch_result web id generic_cover) ids
    ∧ length records
      = (length ids
         - length (filter (fun id => fetch_result web id generic_cover = None) ids))%nat
    ∧ (length records ≤ length ids)%nat.
Proof.
  intros Hperm Hactive Hparse Hids Hne.
  rewrite (search_active _ _ _ _ _ _ _ _ _ Hactive Hparse).
  rewrite search_book_id_eq in Hids. cbn [snd] in Hids.
  destruct (web (SEARCH_URL ++ query')) as [html|e]; [|discriminate].
  injection Hids as Hids. rewrite Hids. cbn zeta.
  destruct ids as [|id ids]; [done|]. cbn [snd].
  set (all := id :: ids).
  set (futures := (fun id => fetch_result web id generic_cover) <$> all).
  exists (omap (fun r => r) (as_completed futures)).
  assert (omap (fun r => r) (as_completed futures)
          ≡ₚ omap (fun id => fetch_result web id generic_cover) all) as HP.
  { rewrite (Hperm futures). unfold futures. by rewrite omap_id_fmap. }
  split; [done|]. split; [done|].
  pose proof (length_omap_id futures) as Hlen.
  unfold futures in Hlen at 2 3. rewrite filter_None_fmap, length_fmap in Hlen.
  rewrite (Permutation_length HP), <- (omap_id_fmap _ all). fold futures. lia.
Qed.

Lemma search_collects_successful_records_witness :
  ∃ records,
    (search Samples.tokens Samples.site (@rev _) {| active := true |}
            (str "A Book") (str "cover.svg") (str "en")).2
    = Ok (Some records)
    ∧ length records = 2%nat.
Proof.
  destruct (search_collects_successful_records
              Samples.tokens Samples.site (@rev _) {| active := true |}
              (str "A Book") (str "cover.svg") (str "en")
              [Tokenize (str "A Book") false] (str "A+Book")
              [str "101"; str "103"; str "104"; str "105"; str "106";
               str "107"; str "108"; str "109"; str "110"])
    as (records & Hsearch & _ & Hlen & _).
  - intros futures. symmetry. apply Permutation_rev.
  - reflexivity.
  - by vm_compute.
  - by vm_compute.
  - discriminate.
  - exists records. split; [exact Hsearch|]. rewrite Hlen. by vm_compute.
Defined.

(** The order of the records follows the completion order, not the ids. *)
Example search_order_follows_completion :
  returned_ids
    (search Samples.tokens Samples.site (fun l => l) {| active := true |}
            (str "A Book") (str "cover.svg") (str "en"))
  = Some [str "101"; str "103"]
  ∧ returned_ids
      (search Samples.tokens Samples.site (@rev _) {| active := true |}
              (str "A Book") (str "cover.svg") (str "en"))
    = Some [str "103"; str "101"].
Proof. split; by vm_compute. Qed.

(** C9: an inactive provider returns the empty list without tokenizing,
    fetching or printing anything, whereas an active one answers a failed
    search or a search without matches with [None]. *)
Theorem search_inactive
        get_title_tokens web as_completed self query generic_cover locale :
  active self = false →
  search get_title_tokens web as_completed self query generic_cover locale
  = ([], Ok (Some []))
  ∧ ∀ log query',
      _parse_query get_title_tokens query = (log, Ok query') →
      (_search_book_id web query').2 = Ok None
      ∨ (_search_book_id web query').2 = Ok (Some []) →
      (search get_title_tokens web as_completed {| active := true |}
              query generic_cover locale).2
      = Ok None
      ∧ (search get_title_tokens web as_completed {| active := true |}
                query generic_cover locale).2
        ≠ (search get_title_tokens web as_completed self query generic_cover locale).2.
Proof.
  intros Hinactive.
  assert (search get_title_tokens web as_completed self query generic_cover locale
          = ([], Ok (Some []))) as Hoff.
  { unfold search. by rewrite Hinactive. }
  split; [exact Hoff|]. intros log query' Hparse Hids.
  rewrite (search_no_book _ web as_completed {| active := true |} _ generic_cover locale
             _ _ eq_refl Hparse Hids), Hoff.
  split; [reflexivity | discriminate].
Qed.

Lemma search_inactive_witness :
  search Samples.tokens Samples.site (@rev _) {| active := false |}
         (str "A Book") (str "cover.svg") (str "en")
  = ([], Ok (Some [])).
Proof.
  apply (search_inactive Samples.tokens Samples.site (@rev _) {| active := false |}
           (str "A Book") (str "cover.svg") (str "en")).
  reflexivity.
Defined.

(** * Further properties *)

(** ** Trimming *)

Lemma lstrip_clean s :
  lstrip s = [] ∨ ∃ c t, lstrip s = c :: t ∧ py_isspace c = false.
Proof.
  induction s as [|c s IH]; [by left|]. cbn [lstrip].
  destruct (py_isspace c) eqn:Hc; [exact IH|]. right. by exists c, s.
Qed.

Lemma lstrip_fixed s :
  s = [] ∨ (∃ c t, s = c :: t ∧ py_isspace c = false) → lstrip s = s.
Proof. intros [->|(c & t & -> & Hc)]; [done|]. cbn [lstrip]. by rewrite Hc. Qed.

Lemma lstrip_suffix s : ∃ k, s = k ++ lstrip s.
Proof.
  induction s as [|c s [k IH]]; [by exists []|]. cbn [lstrip].
  destruct (py_isspace c); [|by exists []].
  exists (c :: k). cbn. by rewrite <- IH.
Qed.

Lemma rstrip_prefix s : ∃ k, s = rstrip s ++ k.
Proof.
  unfold rstrip. destruct (lstrip_suffix (rev s)) as [k Hk].
  exists (rev k). rewrite <- rev_app_distr, <- Hk. by rewrite rev_involutive.
Qed.

Lemma strip_idempotent s : strip (strip s) = strip s.
Proof.
  unfold strip.
  assert (lstrip (rstrip (lstrip s)) = rstrip (lstrip s)) as ->.
  { apply lstrip_fixed. destruct (rstrip_prefix (lstrip s)) as [k Hk].
    destruct (rstrip (lstrip s)) as [|c t] eqn:Hr; [by left|]. right.
    exists c, t. split; [done|].
    destruct (lstrip_clean s) as [He|(c' & t' & He & Hc)]; rewrite He in Hk.
    - discriminate.
    - cbn in Hk. by injection Hk as <- _. }
  unfold rstrip at 1. unfold rstrip at 1. rewrite rev_involutive.
  destruct (lstrip_clean (rev (lstrip s))) as [He|(c & t & He & Hc)].
  - unfold rstrip. by rewrite He.
  - unfold rstrip. rewrite He. cbn [lstrip]. by rewrite Hc.
Qed.

(** ** More on the author/publisher heuristic *)

Lemma author_name_test {A} (a : pystr) (x y : A) :
  (if bool_decide (a ≠ str ",") && bool_decide (a ≠ str "") then x else y)
  = if decide (author_name a) then x else y.
Proof.
  destruct (decide (author_name a)) as [[H1 H2]|Hn].
  - by rewrite !bool_decide_eq_true_2.
  - destruct (bool_decide_reflect (a ≠ str ",")) as [H1|H1]; [|done].
    destruct (bool_decide_reflect (a ≠ str "")) as [H2|H2]; [|done].
    destruct Hn. by split.
Qed.

Lemma authors_of_marker_free frags :
  Forall (fun f => ¬ marker_fragment f) frags →
  authors_of frags = filter author_name (strip <$> frags).
Proof.
  unfold marker_fragment. induction 1 as [|f frags Hf _ IH]; [done|].
  cbn [authors_of fmap list_fmap]. rewrite filter_cons, author_name_test.
  destruct (contains AUTHOR_END_MARK (strip f)); [done|]. by rewrite IH.
Qed.

Lemma authors_of_before_marker pre marker rest :
  Forall (fun f => ¬ marker_fragment f) pre →
  marker_fragment marker →
  authors_of (pre ++ marker :: rest) = filter author_name (strip <$> pre).
Proof.
  unfold marker_fragment. intros Hpre Hm.
  induction Hpre as [|f pre Hf _ IH].
  - cbn. by rewrite Hm.
  - rewrite <- app_comm_cons. cbn [authors_of fmap list_fmap].
    rewrite filter_cons, author_name_test.
    destruct (contains AUTHOR_END_MARK (strip f)); [done|]. by rewrite IH.
Qed.

Lemma marker_free_false pre :
  Forall (fun f => ¬ marker_fragment f) pre →
  Forall (fun f => contains AUTHOR_END_MARK (strip f) = false) pre.
Proof.
  intros H. eapply Forall_impl; [exact H|]. intros f Hf. unfold marker_fragment in Hf.
  by destruct (contains AUTHOR_END_MARK (strip f)).
Qed.

Lemma scanned_marker_free frags :
  Forall (fun f => ¬ marker_fragment f) frags →
  scanned frags = length frags ∧ post_marker frags = [].
Proof.
  intros H. apply marker_free_false in H.
  induction H as [|f frags Hf _ [IH1 IH2]]; [done|].
  cbn. by rewrite Hf, IH1, IH2.
Qed.

Lemma parse_without_block html :
  xpath html AUTHORS_AND_PUBLISHER_XPATH = [] →
  _parse_author_and_publisher html = Raise IndexError.
Proof. intros H. unfold _parse_author_and_publisher. by rewrite H, py_index_0. Qed.

Lemma parse_without_date_tag html :
  xpath html AUTHORS_AND_PUBLISHER_XPATH ≠ [] →
  xpath html PUBLISHED_DATE_XPATH = [] →
  _parse_author_and_publisher html = Raise IndexError.
Proof.
  intros Hli Hd. unfold _parse_author_and_publisher.
  destruct (xpath html AUTHORS_AND_PUBLISHER_XPATH) as [|li lis]; [done|].
  rewrite Hd, !py_index_0. cbn [mbind result_bind].
  pose proof (author_loop_spec [] (itertext li) _ [] (Nat.le_refl _)) as HA.
  cbn [app length] in HA. change (Z.of_nat 0) with 0 in HA. by rewrite HA.
Qed.

Lemma parse_without_date_content html meta metas :
  xpath html AUTHORS_AND_PUBLISHER_XPATH ≠ [] →
  xpath html PUBLISHED_DATE_XPATH = meta :: metas →
  get meta (str "content") = None →
  _parse_author_and_publisher html = Raise AttributeError.
Proof.
  intros Hli Hd Hc. unfold _parse_author_and_publisher.
  destruct (xpath html AUTHORS_AND_PUBLISHER_XPATH) as [|li lis]; [done|].
  rewrite Hd, !py_index_0. cbn [mbind result_bind].
  pose proof (author_loop_spec [] (itertext li) _ [] (Nat.le_refl _)) as HA.
  cbn [app length] in HA. change (Z.of_nat 0) with 0 in HA. rewrite HA.
  cbn [mbind result_bind]. by rewrite Hc.
Qed.

(** X1: the outcomes of [_parse_author_and_publisher]: [IndexError] without
    the sub-title block or without the date tag, [AttributeError] when the
    date tag has no [content], a pair otherwise; the loops themselves never
    index out of range. *)
Theorem parse_author_and_publisher_outcomes html :
  (xpath html AUTHORS_AND_PUBLISHER_XPATH = [] →
   _parse_author_and_publisher html = Raise IndexError)
  ∧ (xpath html AUTHORS_AND_PUBLISHER_XPATH ≠ [] →
     xpath html PUBLISHED_DATE_XPATH = [] →
     _parse_author_and_publisher html = Raise IndexError)
  ∧ (∀ meta metas,
       xpath html AUTHORS_AND_PUBLISHER_XPATH ≠ [] →
       xpath html PUBLISHED_DATE_XPATH = meta :: metas →
       get meta (str "content") = None →
       _parse_author_and_publisher html = Raise AttributeError)
  ∧ (∀ meta metas content,
       xpath html AUTHORS_AND_PUBLISHER_XPATH ≠ [] →
       xpath html PUBLISHED_DATE_XPATH = meta :: metas →
       get meta (str "content") = Some content →
       ∃ authors publisher,
         _parse_author_and_publisher html = Ok (authors, publisher)).
Proof.
  split; [|split; [|split]].
  - apply parse_without_block.
  - apply parse_without_date_tag.
  - apply parse_without_date_content.
  - intros meta metas content Hli Hd Hc.
    destruct (xpath html AUTHORS_AND_PUBLISHER_XPATH) as [|li lis] eqn:He; [done|].
    rewrite (parse_author_and_publisher_spec _ _ _ _ _ _ He Hd Hc). by eexists _, _.
Qed.

Lemma parse_author_and_publisher_outcomes_witness :
  _parse_author_and_publisher Samples.empty_search_page = Raise IndexError
  ∧ _parse_author_and_publisher
      (Samples.page_of [] [Samples.author_block]) = Raise IndexError
  ∧ _parse_author_and_publisher
      (Samples.page_of
         [Element (str "meta") {[ str "itemprop" := str "datePublished" ]} None [] None]
         [Samples.author_block]) = Raise AttributeError
  ∧ ∃ authors publisher,
      _parse_author_and_publisher Samples.detail_page = Ok (authors, publisher).
Proof.
  split; [|split; [|split]].
  - apply (proj1 (parse_author_and_publisher_outcomes _)). by vm_compute.
  - apply (proj1 (proj2 (parse_author_and_publisher_outcomes _))); by vm_compute.
  - eapply (proj1 (proj2 (proj2 (parse_author_and_publisher_outcomes _))));
      by vm_compute.
  - eapply (proj2 (proj2 (proj2 (parse_author_and_publisher_outcomes _))));
      by vm_compute.
Defined.

Lemma parse_author_and_publisher_inv html authors publisher :
  _parse_author_and_publisher html = Ok (authors, publisher) →
  ∃ li lis meta metas content,
    xpath html AUTHORS_AND_PUBLISHER_XPATH = li :: lis
    ∧ xpath html PUBLISHED_DATE_XPATH = meta :: metas
    ∧ get meta (str "content") = Some content
    ∧ authors = authors_of (itertext li)
    ∧ publisher = publisher_of (itertext li) (strip content).
Proof.
  intros Hok.
  pose proof (parse_without_block html) as H1.
  pose proof (parse_without_date_tag html) as H2.
  pose proof (parse_without_date_content html) as H3.
  destruct (xpath html AUTHORS_AND_PUBLISHER_XPATH) as [|li lis] eqn:Hli.
  { rewrite H1 in Hok; [discriminate | done]. }
  destruct (xpath html PUBLISHED_DATE_XPATH) as [|meta metas] eqn:Hd.
  { rewrite H2 in Hok; [discriminate | done | done]. }
  destruct (get meta (str "content")) as [content|] eqn:Hc.
  - rewrite (parse_author_and_publisher_spec _ _ _ _ _ _ Hli Hd Hc) in Hok.
    injection Hok as <- <-. by exists li, lis, meta, metas, content.
  - rewrite (H3 meta metas) in Hok; [discriminate | done | done | done].
Qed.

Lemma authors_of_clean frags :
  Forall (fun a => a ≠ str "" ∧ a ≠ str ","
                   ∧ contains AUTHOR_END_MARK a = false ∧ strip a = a)
         (authors_of frags).
Proof.
  induction frags as [|f frags IH]; cbn [authors_of]; [constructor|].
  destruct (contains AUTHOR_END_MARK (strip f)) eqn:Hm; [constructor|].
  destruct (bool_decide_reflect (strip f ≠ str ",")) as [H1|H1]; [|done].
  destruct (bool_decide_reflect (strip f ≠ str "")) as [H2|H2]; [|done].
  cbn [andb]. constructor; [|done].
  repeat split; [done | done | done | apply strip_idempotent].
Qed.

(** X2: every author [_parse_author_and_publisher] returns is a trimmed,
    non-empty string other than a bare comma that does not hold the marker. *)
Theorem authors_are_clean_names html authors publisher :
  _parse_author_and_publisher html = Ok (authors, publisher) →
  Forall (fun a => a ≠ str "" ∧ a ≠ str ","
                   ∧ contains AUTHOR_END_MARK a = false ∧ strip a = a)
         authors.
Proof.
  intros H. apply parse_author_and_publisher_inv in H
    as (li & lis & meta & metas & content & _ & _ & _ & -> & _).
  apply authors_of_clean.
Qed.

Lemma authors_are_clean_names_witness :
  Forall (fun a => a ≠ str "" ∧ a ≠ str ","
                   ∧ contains AUTHOR_END_MARK a = false ∧ strip a = a)
         [str "Jane Doe"; str "John Roe"].
Proof.
  apply (authors_are_clean_names Samples.spaced_page _ (str " Acme Press ")).
  by vm_compute.
Defined.

Lemma date_offset_first d mid date rest :
  Forall (fun f => strip f ≠ d) mid →
  strip date = d →
  date_offset d (mid ++ date :: rest) = length mid.
Proof.
  intros Hmid Hd. induction Hmid as [|f mid Hf _ IH]; cbn [app date_offset length].
  - by rewrite bool_decide_eq_false_2 by (intros H; by apply H).
  - by rewrite bool_decide_eq_true_2, IH.
Qed.

Lemma last_after_marker (marker : pystr) mid tl :
  (marker :: mid ++ tl) !! length mid = Some (default marker (last mid)).
Proof.
  rewrite app_comm_cons, lookup_app_l by (cbn; lia).
  replace (length mid) with (pred (length (marker :: mid))) by done.
  rewrite <- last_lookup, last_cons. by destruct (last mid).
Qed.

(** X3: on a block that reads authors, marker fragment, any fragments other
    than the date, then the date, the heuristic returns the trimmed names
    before the marker as authors and the fragment just before the first
    date fragment as publisher. *)
Theorem publisher_precedes_first_date
        html li lis meta metas content pre marker mid date rest :
  xpath html AUTHORS_AND_PUBLISHER_XPATH = li :: lis →
  xpath html PUBLISHED_DATE_XPATH = meta :: metas →
  get meta (str "content") = Some content →
  itertext li = pre ++ marker :: mid ++ date :: rest →
  Forall (fun f => ¬ marker_fragment f) pre →
  marker_fragment marker →
  Forall (fun f => strip f ≠ strip content) mid →
  strip date = strip content →
  _parse_author_and_publisher html
  = Ok (filter author_name (strip <$> pre), default marker (last mid)).
Proof.
  intros Hli Hmeta Hc Hsub Hpre Hm Hmid Hd.
  rewrite (parse_author_and_publisher_spec _ _ _ _ _ _ Hli Hmeta Hc), Hsub.
  rewrite (authors_of_before_marker _ _ _ Hpre Hm).
  apply f_equal, (f_equal (pair _)). unfold publisher_of, date_index.
  destruct (scanned_marker pre marker (mid ++ date :: rest)
              (marker_free_false _ Hpre) Hm) as [-> ->].
  rewrite (date_offset_first _ _ _ _ Hmid Hd).
  rewrite bool_decide_eq_true_2
    by (rewrite length_app; cbn [length]; rewrite length_app; cbn [length]; lia).
  replace (S (length pre) + length mid - 1)%nat with (length pre + length mid)%nat by lia.
  rewrite lookup_app_r by apply Nat.le_add_r.
  rewrite Nat.add_comm, Nat.add_sub.
  by rewrite last_after_marker.
Qed.

Lemma publisher_precedes_first_date_witness :
  _parse_author_and_publisher Samples.spaced_page
  = Ok ([str "Jane Doe"; str "John Roe"], str " Acme Press ").
Proof.
  apply (publisher_precedes_first_date
           Samples.spaced_page Samples.spaced_block [] Samples.date_published []
           (str "2020-01-01")
           [str " "; str "Jane Doe"; str ", "; str " John Roe "]
           (str " " ++ AUTHOR_END_MARK ++ str " ")
           [str " Acme Press "] (str " 2020-01-01 ") []); try by vm_compute.
  - repeat constructor; by vm_compute.
  - repeat constructor; by vm_compute.
Defined.

(** X4: on a block without a marker fragment every fragment is read as an
    author, the publisher and the date among them, and the publisher is
    empty. *)
Theorem block_without_marker html li lis meta metas content :
  xpath html AUTHORS_AND_PUBLISHER_XPATH = li :: lis →
  xpath html PUBLISHED_DATE_XPATH = meta :: metas →
  get meta (str "content") = Some content →
  Forall (fun f => ¬ marker_fragment f) (itertext li) →
  _parse_author_and_publisher html
  = Ok (filter author_name (strip <$> itertext li), str "").
Proof.
  intros Hli Hmeta Hc Hfree.
  rewrite (parse_author_and_publisher_spec _ _ _ _ _ _ Hli Hmeta Hc).
  rewrite (authors_of_marker_free _ Hfree).
  apply f_equal, (f_equal (pair _)). unfold publisher_of, date_index.
  destruct (scanned_marker_free _ Hfree) as [-> ->]. cbn [date_offset].
  rewrite bool_decide_eq_false_2; [done | lia].
Qed.

Lemma block_without_marker_witness :
  _parse_author_and_publisher MoreSamples.unmarked_page
  = Ok (filter author_name (strip <$> itertext MoreSamples.unmarked_block), str "").
Proof.
  apply (block_without_marker MoreSamples.unmarked_page MoreSamples.unmarked_block []
           Samples.date_published [] (str "2020-01-01")); try by vm_compute.
  repeat constructor; by vm_compute.
Defined.

Example block_without_marker_sample :
  _parse_author_and_publisher MoreSamples.unmarked_page
  = Ok ([str "Jane Doe"; str "Acme Press"; str "2020-01-01"], str "").
Proof. by vm_compute. Qed.

(** ** More on the item fetcher *)

(** X5: a page that has the six tags, the date tag with a [content], always
    yields a record, whatever else it holds; a tag without [content] leaves
    its field [None]. *)
Theorem fetch_book_emits_on_complete_page web id generic_cover html
        title_tag li cover_tag description_tag isbn_tag date_tag
        title_tags lis cover_tags description_tags isbn_tags date_tags date :
  web (book_url id) = Ok html →
  xpath html TITLE_XPATH = title_tag :: title_tags →
  xpath html AUTHORS_AND_PUBLISHER_XPATH = li :: lis →
  xpath html COVER_XPATH = cover_tag :: cover_tags →
  xpath html DESCRIPTION_XPATH = description_tag :: description_tags →
  xpath html ISBN_XPATH = isbn_tag :: isbn_tags →
  xpath html PUBLISHED_DATE_XPATH = date_tag :: date_tags →
  get date_tag (str "content") = Some date →
  _fetch_book web id generic_cover
  = ([HttpGet (book_url id)],
     Ok (Some {| record_id := id;
                 title := get title_tag (str "content");
                 authors := authors_of (itertext li);
                 url := book_url id;
                 source := {| source_id := provider_id;
                              source_description := DESCRIPTION;
                              source_link := META_URL |};
                 cover := py_or (get cover_tag (str "content")) generic_cover;
                 description := get description_tag (str "content");
                 identifiers := {[ str "isbn" := get isbn_tag (str "content") ]};
                 publisher := publisher_of (itertext li) (strip date);
                 publishedDate := Some date;
                 rating := 0 |})).
Proof.
  intros Hweb Ht Hli Hc Hd Hi Hp Hdate.
  rewrite fetch_book_eq, fetch_result_eq, Hweb.
  by rewrite (fetch_book_block_complete _ _ _ _ _ _ _ _ _ _ _ _ _ _ _ _ _
                Ht Hli Hc Hd Hi Hp Hdate).
Qed.

Lemma fetch_book_emits_on_complete_page_witness :
  ∃ record,
    _fetch_book (fun _ => Ok MoreSamples.bare_page) (str "7") (str "cover.svg")
    = ([HttpGet (book_url (str "7"))], Ok (Some record))
    ∧ title record = None ∧ description record = None
    ∧ identifiers record !! str "isbn" = Some None.
Proof.
  eexists. split.
  - eapply (fetch_book_emits_on_complete_page
              (fun _ => Ok MoreSamples.bare_page) (str "7") (str "cover.svg")
              MoreSamples.bare_page
              (MoreSamples.bare_meta "property" "og:title") Samples.author_block
              (MoreSamples.bare_meta "property" "og:image")
              (MoreSamples.bare_meta "property" "og:description")
              (MoreSamples.bare_meta "property" "books:isbn")
              Samples.date_published [] [] [] [] [] [] (str "2020-01-01"));
      by vm_compute.
  - by vm_compute.
Defined.

(** X6: an item whose page cannot be fetched, or whose date tag has no
    [content] attribute, is dropped. *)
Theorem fetch_book_drops web id generic_cover :
  (∀ e, web (book_url id) = Raise e →
        _fetch_book web id generic_cover = ([HttpGet (book_url id)], Ok None))
  ∧ (∀ html date_tag date_tags,
       web (book_url id) = Ok html →
       xpath html PUBLISHED_DATE_XPATH = date_tag :: date_tags →
       get date_tag (str "content") = None →
       _fetch_book web id generic_cover = ([HttpGet (book_url id)], Ok None)).
Proof.
  split.
  - intros e Hweb. by rewrite fetch_book_eq, fetch_result_eq, Hweb.
  - intros html date_tag date_tags Hweb Hp Hnone.
    rewrite fetch_book_eq, fetch_result_eq, Hweb.
    destruct (fetch_book_block_incomplete html id (book_url id) generic_cover)
      as [e ->]; [|done].
    do 6 right. by exists date_tag, date_tags.
Qed.

Lemma fetch_book_drops_witness :
  _fetch_book Samples.offline (str "7") (str "cover.svg")
  = ([HttpGet (book_url (str "7"))], Ok None)
  ∧ _fetch_book (fun _ => Ok MoreSamples.undated_page) (str "7") (str "cover.svg")
    = ([HttpGet (book_url (str "7"))], Ok None).
Proof.
  split.
  - apply (proj1 (fetch_book_drops Samples.offline (str "7") (str "cover.svg"))
             HTTPError).
    reflexivity.
  - eapply (proj2 (fetch_book_drops (fun _ => Ok MoreSamples.undated_page)
                     (str "7") (str "cover.svg"))
              MoreSamples.undated_page
              (MoreSamples.bare_meta "itemprop" "datePublished") []);
      by vm_compute.
Defined.

(** X7: the cover of an emitted record is the [content] of the first
    [og:image] tag when that is a non-empty string and [generic_cover]
    otherwise, so it is empty only if [generic_cover] is. *)
Theorem fetch_book_cover web id generic_cover record html cover_tag cover_tags :
  web (book_url id) = Ok html →
  xpath html COVER_XPATH = cover_tag :: cover_tags →
  (_fetch_book web id generic_cover).2 = Ok (Some record) →
  (∀ s, get cover_tag (str "content") = Some s → s ≠ [] → cover record = s)
  ∧ (get cover_tag (str "content") = None
     ∨ get cover_tag (str "content") = Some [] → cover record = generic_cover)
  ∧ (generic_cover ≠ [] → cover record ≠ []).
Proof.
  intros Hweb Hc H.
  destruct (fetch_book_record web id generic_cover record H)
    as (html' & ? & ? & c & ? & ? & ? & ? & ? & cs & ? & ? & ? & ? & H').
  decompose [and] H'. subst record. cbn [cover].
  assert (html' = html) as -> by congruence.
  assert (c = cover_tag) as -> by congruence.
  split; [|split].
  - intros s -> Hs. cbn [py_or]. by rewrite bool_decide_eq_false_2.
  - by intros [-> | ->].
  - intros Hg. destruct (get cover_tag (str "content")) as [s|]; cbn [py_or]; [|done].
    by case_bool_decide.
Qed.

Lemma fetch_book_cover_witness :
  ∃ record,
    (_fetch_book (fun _ => Ok Samples.detail_page) (str "101") (str "cover.svg")).2
    = Ok (Some record)
    ∧ cover record = str "https://image.aladin.co.kr/1.jpg".
Proof.
  eexists. split; [by vm_compute|].
  eapply (proj1 (fetch_book_cover (fun _ => Ok Samples.detail_page) (str "101")
                   (str "cover.svg") _ Samples.detail_page Samples.og_image []
                   eq_refl ltac:(by vm_compute) ltac:(by vm_compute)));
    by vm_compute.
Defined.

(** X8: the identifiers of an emitted record hold one key, [isbn], bound to
    the [content] of the first [books:isbn] tag. *)
Theorem fetch_book_identifiers web id generic_cover record :
  (_fetch_book web id generic_cover).2 = Ok (Some record) →
  ∃ html isbn_tag isbn_tags,
    web (book_url id) = Ok html
    ∧ xpath html ISBN_XPATH = isbn_tag :: isbn_tags
    ∧ identifiers record !! str "isbn" = Some (get isbn_tag (str "content"))
    ∧ dom (identifiers record) = {[ str "isbn" ]}.
Proof.
  intros H.
  destruct (fetch_book_record web id generic_cover record H)
    as (html & ? & ? & ? & ? & i & ? & ? & ? & ? & ? & iss & ? & ? & H').
  decompose [and] H'. subst record. cbn [identifiers].
  exists html, i, iss. split; [done|]. split; [done|]. split.
  - apply lookup_singleton_eq.
  - apply dom_singleton_L.
Qed.

Lemma fetch_book_identifiers_witness :
  ∃ record,
    (_fetch_book (fun _ => Ok Samples.detail_page) (str "101") (str "cover.svg")).2
    = Ok (Some record)
    ∧ dom (identifiers record) = {[ str "isbn" ]}.
Proof.
  eexists. split; [by vm_compute|].
  destruct (fetch_book_identifiers (fun _ => Ok Samples.detail_page) (str "101")
              (str "cover.svg") _ ltac:(by vm_compute))
    as (_ & _ & _ & _ & _ & _ & Hdom).
  exact Hdom.
Defined.

(** ** More on the search call *)

Lemma parse_query_log get_title_tokens query :
  (_parse_query get_title_tokens query).1 = [Tokenize query false].
Proof.
  unfold _parse_query. cbn [mbind IO_bind emit].
  case_bool_decide; [|done]. unfold lift.
  by destruct (comprehension _ _).
Qed.

Lemma requests_app log log' : requests (log ++ log') = requests log ++ requests log'.
Proof. apply omap_app. Qed.

Lemma printed_app log log' : printed (log ++ log') = printed log ++ printed log'.
Proof. apply omap_app. Qed.

Lemma requests_HttpGet urls : requests (HttpGet <$> urls) = urls.
Proof. induction urls as [|u urls IH]; [done|]. cbn. by rewrite <- IH at 2. Qed.

Lemma requests_cons_HttpGet u log : requests (HttpGet u :: log) = u :: requests log.
Proof. reflexivity. Qed.

Lemma printed_cons_HttpGet u log : printed (HttpGet u :: log) = printed log.
Proof. reflexivity. Qed.

Lemma printed_HttpGet urls : printed (HttpGet <$> urls) = [].
Proof. induction urls as [|u urls IH]; [done|]. exact IH. Qed.

Lemma length_itemids (items : list node) :
  (length (omap (fun element => attrib element !! str "itemid") (take 10 items)) ≤ 10)%nat.
Proof.
  rewrite <- (Forall2_length _ _ _ (itemid_Forall2 (take 10 items))).
  etrans; [apply length_filter|]. rewrite length_take. lia.
Qed.

Lemma length_omap_le {A B} (f : A → option B) (l : list A) :
  (length (omap f l) ≤ length l)%nat.
Proof.
  induction l as [|a l IH]; [done|]. cbn [omap list_omap].
  destruct (f a); cbn [length]; lia.
Qed.

(** X9: one call of [search] sends at most eleven requests, the search page
    and at most ten detail pages, and returns at most ten records. *)
Theorem search_is_bounded
        get_title_tokens web as_completed self query generic_cover locale :
  (∀ futures, as_completed futures ≡ₚ futures) →
  (length (requests
             (search get_title_tokens web as_completed self query generic_cover locale).1)
   ≤ 11)%nat
  ∧ ∀ records,
      (search get_title_tokens web as_completed self query generic_cover locale).2
      = Ok (Some records) →
      (length records ≤ 10)%nat.
Proof.
  intros Hperm. destruct (active self) eqn:Hactive.
  2:{ unfold search. rewrite Hactive. split; [cbn; lia|].
      intros records [= <-]. cbn. lia. }
  pose proof (parse_query_log get_title_tokens query) as Hlog.
  destruct (_parse_query get_title_tokens query) as [log [query'|e]] eqn:Hparse;
    cbn [fst] in Hlog; subst log.
  2:{ unfold search. rewrite Hactive, Hparse. cbn [mbind IO_bind fst snd].
      split; [cbn; lia | discriminate]. }
  rewrite (search_active _ _ _ _ _ _ _ _ _ Hactive Hparse).
  destruct (web (SEARCH_URL ++ query')) as [html|e];
    [|split; [cbn; lia | discriminate]].
  pose proof (length_itemids (xpath html ITEM_XPATH)) as Hten. cbn zeta.
  destruct (omap _ _) as [|id ids] eqn:Hids; [split; [cbn; lia | discriminate]|].
  cbn [fst snd]. split.
  - rewrite requests_app, requests_cons_HttpGet, requests_HttpGet.
    cbn [requests omap list_omap app length]. rewrite length_fmap.
    apply le_n_S. exact Hten.
  - intros records [= <-].
    etrans; [apply length_omap_le|].
    rewrite (Permutation_length (Hperm _)).
    cbn [fmap list_fmap length]. rewrite ?length_fmap. exact Hten.
Qed.

Lemma search_is_bounded_witness :
  (length (requests
             (search Samples.tokens Samples.site (@rev _) {| active := true |}
                     (str "A Book") (str "cover.svg") (str "en")).1)
   ≤ 11)%nat.
Proof.
  apply (search_is_bounded Samples.tokens Samples.site (@rev _) {| active := true |}
           (str "A Book") (str "cover.svg") (str "en")).
  intros futures. symmetry. apply Permutation_rev.
Defined.

(** X10: when the search page lists at least one id, [search] prints nothing
    and returns a list, never [None]; the list is empty when every item
    fetch fails. *)
Theorem search_with_ids_returns_list
        get_title_tokens web as_completed self query generic_cover locale
        log query' id ids :
  (∀ futures, as_completed futures ≡ₚ futures) →
  active self = true →
  _parse_query get_title_tokens query = (log, Ok query') →
  (_search_book_id web query').2 = Ok (Some (id :: ids)) →
  ∃ records,
    (search get_title_tokens web as_completed self query generic_cover locale).2
    = Ok (Some records)
    ∧ printed
        (search get_title_tokens web as_completed self query generic_cover locale).1
      = []
    ∧ (Forall (fun i => fetch_result web i generic_cover = None) (id :: ids) →
       records = []).
Proof.
  intros Hperm Hactive Hparse Hids.
  pose proof (parse_query_log get_title_tokens query) as Hlog.
  rewrite Hparse in Hlog. cbn [fst] in Hlog. subst log.
  rewrite (search_active _ _ _ _ _ _ _ _ _ Hactive Hparse).
  rewrite search_book_id_eq in Hids. cbn [snd] in Hids.
  destruct (web (SEARCH_URL ++ query')) as [html|e]; [|discriminate].
  injection Hids as Hids. rewrite Hids. cbn zeta. cbn [fst snd].
  eexists. split; [done|]. split.
  - rewrite printed_app, printed_cons_HttpGet, printed_HttpGet. done.
  - intros Hfail.
    set (futures := (fun i => fetch_result web i generic_cover) <$> id :: ids).
    assert (Forall (fun r => r = None) futures) as Hnone.
    { unfold futures. apply Forall_fmap. exact Hfail. }
    rewrite <- (Hperm futures) in Hnone.
    induction Hnone as [|r l -> _ IH]; [done | exact IH].
Qed.

Lemma search_with_ids_returns_list_witness :
  ∃ records,
    (search Samples.tokens Samples.site (@rev _) {| active := true |}
            (str "A Book") (str "cover.svg") (str "en")).2
    = Ok (Some records)
    ∧ printed
        (search Samples.tokens Samples.site (@rev _) {| active := true |}
                (str "A Book") (str "cover.svg") (str "en")).1
      = [].
Proof.
  destruct (search_with_ids_returns_list
              Samples.tokens Samples.site (@rev _) {| active := true |}
              (str "A Book") (str "cover.svg") (str "en")
              [Tokenize (str "A Book") false] (str "A+Book")
              (str "101")
              [str "103"; str "104"; str "105"; str "106";
               str "107"; str "108"; str "109"; str "110"])
    as (records & Hsearch & Hprinted & _).
  - intros futures. symmetry. apply Permutation_rev.
  - reflexivity.
  - by vm_compute.
  - by vm_compute.
  - exists records. split; [exact Hsearch | exact Hprinted].
Defined.

(** X11: the records [search] returns are those of the ids of the search
    page whose fetch gave a record, each carrying the id and the detail-page
    URL it was fetched for. *)
Theorem search_records_come_from_ids
        get_title_tokens web as_completed self query generic_cover locale
        log query' ids records :
  (∀ futures, as_completed futures ≡ₚ futures) →
  active self = true →
  _parse_query get_title_tokens query = (log, Ok query') →
  (_search_book_id web query').2 = Ok (Some ids) →
  (search get_title_tokens web as_completed self query generic_cover locale).2
  = Ok (Some records) →
  ∀ r, r ∈ records ↔
       ∃ id, id ∈ ids ∧ fetch_result web id generic_cover = Some r
             ∧ record_id r = id ∧ url r = book_url id.
Proof.
  intros Hperm Hactive Hparse Hids Hsearch r.
  rewrite (search_active _ _ _ _ _ _ _ _ _ Hactive Hparse) in Hsearch.
  rewrite search_book_id_eq in Hids. cbn [snd] in Hids.
  destruct (web (SEARCH_URL ++ query')) as [html|e]; [|discriminate].
  injection Hids as Hids. rewrite Hids in Hsearch. cbn zeta in Hsearch.
  assert (records
          = omap (fun o => o)
                 (as_completed ((fun id => fetch_result web id generic_cover) <$> ids)))
    as ->.
  { destruct ids as [|id0 ids0]; [discriminate|]. cbn [snd] in Hsearch. congruence. }
  rewrite list_elem_of_omap. split.
  - intros (o & Ho & ->). rewrite (Hperm _) in Ho.
    apply list_elem_of_fmap in Ho as (id & Hr & Hid).
    exists id. split; [done|]. split; [done|].
    assert ((_fetch_book web id generic_cover).2 = Ok (Some r)) as Hf.
    { rewrite fetch_book_eq. cbn [snd]. by rewrite <- Hr. }
    destruct (fetch_book_record web id generic_cover r Hf)
      as (? & ? & ? & ? & ? & ? & ? & ? & ? & ? & ? & ? & ? & ? & H').
    decompose [and] H'. by subst r.
  - intros (id & Hid & Hr & _). exists (Some r). split; [|done].
    rewrite (Hperm _). apply list_elem_of_fmap. by exists id.
Qed.

Lemma search_records_come_from_ids_witness :
  ∃ records r,
    (search Samples.tokens Samples.site (@rev _) {| active := true |}
            (str "A Book") (str "cover.svg") (str "en")).2
    = Ok (Some records)
    ∧ fetch_result Samples.site (str "103") (str "cover.svg") = Some r
    ∧ r ∈ records.
Proof.
  eexists _, _. split; [vm_compute; reflexivity|].
  split; [vm_compute; reflexivity|].
  eapply (proj2 (search_records_come_from_ids
            Samples.tokens Samples.site (@rev _) {| active := true |}
            (str "A Book") (str "cover.svg") (str "en")
            [Tokenize (str "A Book") false] (str "A+Book")
            [str "101"; str "103"; str "104"; str "105"; str "106";
             str "107"; str "108"; str "109"; str "110"] _ _ _ _ _ _ _)).
  exists (str "103"). split; [right; left|]. split; [|split]; vm_compute; reflexivity.
  Unshelve.
  - intros futures. symmetry. apply Permutation_rev.
  - reflexivity.
  - vm_compute; reflexivity.
  - vm_compute; reflexivity.
  - vm_compute; reflexivity.
Defined.

(** ** More on query normalisation *)

Lemma quote_chars bs : Forall (fun c => query_char c = true) (quote bs).
Proof.
  unfold quote. induction bs as [|b bs IH]; cbn; [constructor|].
  apply Forall_app. split; [|exact IH].
  destruct b; vm_compute; repeat constructor.
Qed.

Lemma join_chars (P : N → Prop) sep parts :
  Forall P sep → Forall (Forall P) parts → Forall P (join sep parts).
Proof.
  intros Hsep Hparts. induction Hparts as [|p ps Hp Hps IH]; [constructor|].
  cbn [join]. destruct ps as [|p' ps]; [exact Hp|].
  apply Forall_app. split; [exact Hp|]. apply Forall_app. by split.
Qed.

Lemma comprehension_inv {A B} (f : A → result B) l ys :
  comprehension f l = Ok ys → Forall2 (fun x y => f x = Ok y) l ys.
Proof.
  revert ys. induction l as [|x l IH]; intros ys; cbn [comprehension].
  - intros [= <-]. constructor.
  - destruct (f x) as [y|e] eqn:Hx; [|discriminate]. cbn [mbind result_bind].
    destruct (comprehension f l) as [ys'|e]; [|discriminate].
    cbn [mbind result_bind]. intros [= <-]. constructor; auto.
Qed.

Lemma query_char_ascii c : query_char c = true → (c < 128 ∧ c ≠ 32)%N.
Proof.
  unfold query_char, quote_safe.
  rewrite !orb_true_iff, !andb_true_iff, !N.leb_le, !N.eqb_eq. lia.
Qed.

(** X12: a query normalised from at least one token is made of ASCII
    letters, digits, [_.-~/], [%] and [+] only; in particular it holds no
    blank and no character above U+007F. *)
Theorem parse_query_is_url_safe (get_title_tokens : pystr → bool → list pystr)
        query log query' :
  get_title_tokens query false ≠ [] →
  _parse_query get_title_tokens query = (log, Ok query') →
  Forall (fun c => query_char c = true ∧ (c < 128)%N ∧ c ≠ 32%N) query'.
Proof.
  intros Hne. unfold _parse_query. rewrite bool_decide_eq_true_2 by done.
  cbn [mbind IO_bind emit]. unfold lift.
  destruct (comprehension _ _) as [tokens|e] eqn:Hc; [|discriminate].
  cbn [mbind IO_bind mret IO_ret]. intros [= _ <-].
  apply comprehension_inv in Hc.
  assert (Forall (Forall (fun c => query_char c = true)) tokens) as Htok.
  { clear Hne. induction Hc as [|t q ts qs Hq _ IH]; constructor; [|exact IH].
    destruct (encode_utf8 t) as [bs|]; [|discriminate].
    injection Hq as <-. apply quote_chars. }
  apply (Forall_impl (fun c => query_char c = true));
    [apply join_chars; [by (vm_compute; repeat constructor) | exact Htok]|].
  intros c Hc'. split; [done|]. by apply query_char_ascii.
Qed.

Lemma parse_query_is_url_safe_witness :
  Forall (fun c => query_char c = true ∧ (c < 128)%N ∧ c ≠ 32%N) (str "A+Book").
Proof.
  apply (parse_query_is_url_safe Samples.tokens (str "A Book")
           [Tokenize (str "A Book") false] (str "A+Book")); by vm_compute.
Defined.

Lemma encode_codepoint_unencodable c :
  ¬ scalar_value c → encode_codepoint c = None.
Proof.
  unfold scalar_value, encode_codepoint. intros Hc.
  destruct (N.ltb_spec c 128); [lia|].
  destruct (N.ltb_spec c 2048); [lia|].
  destruct (N.leb_spec 55296 c); destruct (N.leb_spec c 57343); cbn [andb];
    try reflexivity; try lia.
  all: destruct (N.ltb_spec c 65536); [lia|].
  all: destruct (N.ltb_spec c 1114112); [lia | reflexivity].
Qed.

Lemma encode_utf8_outcome s :
  (∃ bs, encode_utf8 s = Ok bs) ∨ encode_utf8 s = Raise UnicodeEncodeError.
Proof.
  induction s as [|c s IH]; [left; by eexists|]. cbn [encode_utf8].
  destruct (encode_codepoint c); [|by right].
  destruct IH as [[bs ->]| ->]; [left; by eexists | by right].
Qed.

Lemma encode_utf8_unencodable s :
  Exists (fun c => ¬ scalar_value c) s → encode_utf8 s = Raise UnicodeEncodeError.
Proof.
  induction 1 as [c s Hc|c s _ IH]; cbn [encode_utf8].
  - by rewrite (encode_codepoint_unencodable c Hc).
  - destruct (encode_codepoint c); [|done]. by rewrite IH.
Qed.

Lemma comprehension_unencodable tokens :
  Exists (Exists (fun c => ¬ scalar_value c)) tokens →
  comprehension (fun t => quote <$> encode_utf8 t) tokens = Raise UnicodeEncodeError.
Proof.
  induction 1 as [t tokens Ht|t tokens _ IH]; cbn [comprehension].
  - by rewrite (encode_utf8_unencodable t Ht).
  - destruct (encode_utf8_outcome t) as [[bs ->]| ->]; [|done].
    cbn [fmap result_fmap mbind result_bind]. by rewrite IH.
Qed.

(** X13: a token with a code point outside the Unicode scalar values, such
    as a lone surrogate, makes [_parse_query] raise [UnicodeEncodeError];
    [search] does not catch it and raises before any request is sent. *)
Theorem unencodable_token_raises
        get_title_tokens web as_completed self query generic_cover locale :
  Exists (Exists (fun c => ¬ scalar_value c)) (get_title_tokens query false) →
  _parse_query get_title_tokens query
  = ([Tokenize query false], Raise UnicodeEncodeError)
  ∧ (active self = true →
     search get_title_tokens web as_completed self query generic_cover locale
     = ([Tokenize query false], Raise UnicodeEncodeError)).
Proof.
  intros Hbad.
  assert (_parse_query get_title_tokens query
          = ([Tokenize query false], Raise UnicodeEncodeError)) as Hparse.
  { unfold _parse_query. rewrite bool_decide_eq_true_2.
    - unfold lift. by rewrite (comprehension_unencodable _ Hbad).
    - intros He. rewrite He in Hbad. by apply Exists_nil in Hbad. }
  split; [exact Hparse|]. intros Hactive. unfold search. by rewrite Hactive, Hparse.
Qed.

Lemma unencodable_token_raises_witness :
  search Samples.tokens Samples.site (@rev _) {| active := true |}
         [55296%N] (str "cover.svg") (str "en")
  = ([Tokenize [55296%N] false], Raise UnicodeEncodeError).
Proof.
  apply (unencodable_token_raises Samples.tokens Samples.site (@rev _)
           {| active := true |} [55296%N] (str "cover.svg") (str "en"));
    [|reflexivity].
  apply Exists_cons_hd, Exists_cons_hd. unfold scalar_value. lia.
Defined.

(** ** More on search-id extraction *)

Lemma itemid_all (items : list node) :
  Forall (fun element => is_Some (attrib element !! str "itemid")) items →
  Forall2 (fun element id => attrib element !! str "itemid" = Some id)
          items (omap (fun element => attrib element !! str "itemid") items).
Proof.
  induction 1 as [|e items [v Hv] _ IH]; [constructor|].
  cbn [omap list_omap]. rewrite Hv. by constructor.
Qed.

(** X14: when the search page has at most ten result boxes and each has an
    [itemid], [_search_book_id] returns the id of every box, in page
    order. *)
Theorem search_book_id_keeps_all web query html :
  web (SEARCH_URL ++ query) = Ok html →
  (length (xpath html ITEM_XPATH) ≤ 10)%nat →
  Forall (fun element => is_Some (attrib element !! str "itemid"))
         (xpath html ITEM_XPATH) →
  ∃ ids,
    _search_book_id web query = ([HttpGet (SEARCH_URL ++ query)], Ok (Some ids))
    ∧ Forall2 (fun element id => attrib element !! str "itemid" = Some id)
              (xpath html ITEM_XPATH) ids.
Proof.
  intros Hweb Hlen Hall. rewrite search_book_id_eq, Hweb.
  rewrite take_ge by exact Hlen. eexists. split; [done|]. by apply itemid_all.
Qed.

Lemma search_book_id_keeps_all_witness :
  ∃ ids,
    _search_book_id (fun _ => Ok MoreSamples.short_search_page) (str "A+Book")
    = ([HttpGet (SEARCH_URL ++ str "A+Book")], Ok (Some ids))
    ∧ Forall2 (fun element id => attrib element !! str "itemid" = Some id)
              (xpath MoreSamples.short_search_page ITEM_XPATH) ids.
Proof.
  apply (search_book_id_keeps_all (fun _ => Ok MoreSamples.short_search_page)
           (str "A+Book") MoreSamples.short_search_page).
  - reflexivity.
  - vm_compute. lia.
  - vm_compute. repeat constructor; by eexists.
Defined.

(** ** Normalisation is lossless *)

Lemma to_N_inj b1 b2 : Byte.to_N b1 = Byte.to_N b2 → b1 = b2.
Proof.
  intros H. apply (f_equal Byte.of_N) in H. rewrite !Byte.of_to_N in H. congruence.
Qed.

Lemma hex_digit_inj a b : hex_digit a = hex_digit b → a = b.
Proof.
  unfold hex_digit.
  destruct (N.ltb_spec a 10); destruct (N.ltb_spec b 10); lia.
Qed.

Lemma quote_byte_inj b1 b2 r1 r2 :
  quote_byte b1 ++ r1 = quote_byte b2 ++ r2 → b1 = b2 ∧ r1 = r2.
Proof.
  unfold quote_byte.
  destruct (quote_safe (Byte.to_N b1)) eqn:H1;
    destruct (quote_safe (Byte.to_N b2)) eqn:H2; cbn [app].
  - intros [= Hn Hr]. split; [by apply to_N_inj | done].
  - intros [= Hn _]. rewrite Hn in H1. by vm_compute in H1.
  - intros [= Hn _]. rewrite <- Hn in H2. by vm_compute in H2.
  - intros [= Hh Hl Hr]. split; [|done]. apply to_N_inj.
    apply hex_digit_inj in Hh, Hl.
    rewrite (N.div_mod' (Byte.to_N b1) 16), (N.div_mod' (Byte.to_N b2) 16).
    by rewrite Hh, Hl.
Qed.

Lemma quote_inj bs1 bs2 : quote bs1 = quote bs2 → bs1 = bs2.
Proof.
  unfold quote. revert bs2. induction bs1 as [|b1 bs1 IH]; intros [|b2 bs2]; cbn.
  - done.
  - unfold quote_byte. by destruct (quote_safe _).
  - unfold quote_byte. by destruct (quote_safe _).
  - intros H. apply quote_byte_inj in H as [-> H]. by rewrite (IH _ H).
Qed.

Lemma to_N_byte_of_N n : Byte.to_N (byte_of_N n) = (n mod 256)%N.
Proof.
  unfold byte_of_N. destruct (Byte.of_N (n mod 256)) as [b|] eqn:Hb.
  - by apply Byte.to_of_N.
  - apply Byte.of_N_None_iff in Hb.
    pose proof (N.mod_upper_bound n 256). lia.
Qed.

Lemma to_N_byte_of_N_small n : (n < 256)%N → Byte.to_N (byte_of_N n) = n.
Proof. intros H. by rewrite to_N_byte_of_N, N.mod_small. Qed.

(** The bytes of a code point, as numbers, and the code point read back
    from them. *)
Lemma encode_codepoint_decode c bs :
  encode_codepoint c = Some bs →
  (∃ n0, Byte.to_N <$> bs = [n0] ∧ n0 < 128 ∧ c = n0)%N
  ∨ (∃ n0 n1, Byte.to_N <$> bs = [n0; n1] ∧ 192 ≤ n0 < 224
              ∧ c = (n0 - 192) * 64 + (n1 - 128))%N
  ∨ (∃ n0 n1 n2, Byte.to_N <$> bs = [n0; n1; n2] ∧ 224 ≤ n0 < 240
                 ∧ c = (n0 - 224) * 4096 + (n1 - 128) * 64 + (n2 - 128))%N
  ∨ (∃ n0 n1 n2 n3, Byte.to_N <$> bs = [n0; n1; n2; n3] ∧ 240 ≤ n0 < 248
                    ∧ c = (n0 - 240) * 262144 + (n1 - 128) * 4096
                          + (n2 - 128) * 64 + (n3 - 128))%N.
Proof.
  unfold encode_codepoint.
  destruct (N.ltb_spec c 128) as [H1|H1].
  { intros [= <-]. left. exists c. cbn [fmap list_fmap].
    rewrite to_N_byte_of_N_small by lia. done. }
  destruct (N.ltb_spec c 2048) as [H2|H2].
  { intros [= <-]. right; left. eexists _, _. cbn [fmap list_fmap].
    rewrite !to_N_byte_of_N_small
      by (zify; Z.to_euclidean_division_equations; lia).
    split; [done|]. zify; Z.to_euclidean_division_equations; lia. }
  destruct ((55296 <=? c)%N && (c <=? 57343)%N); [discriminate|].
  destruct (N.ltb_spec c 65536) as [H3|H3].
  { intros [= <-]. right; right; left. eexists _, _, _. cbn [fmap list_fmap].
    rewrite !to_N_byte_of_N_small
      by (zify; Z.to_euclidean_division_equations; lia).
    split; [done|]. zify; Z.to_euclidean_division_equations; lia. }
  destruct (N.ltb_spec c 1114112) as [H4|H4]; [|discriminate].
  intros [= <-]. right; right; right. eexists _, _, _, _. cbn [fmap list_fmap].
  rewrite !to_N_byte_of_N_small
    by (zify; Z.to_euclidean_division_equations; lia).
  split; [done|]. zify; Z.to_euclidean_division_equations; lia.
Qed.

Lemma encode_codepoint_inj c1 c2 bs1 bs2 r1 r2 :
  encode_codepoint c1 = Some bs1 →
  encode_codepoint c2 = Some bs2 →
  bs1 ++ r1 = bs2 ++ r2 →
  c1 = c2 ∧ r1 = r2.
Proof.
  intros H1 H2 Heq.
  assert (c1 = c2) as ->.
  { apply (f_equal (fmap Byte.to_N)) in Heq. rewrite !fmap_app in Heq.
    destruct (encode_codepoint_decode _ _ H1)
      as [(a0 & Ha & ? & ?)|[(a0 & a1 & Ha & ? & ?)
         |[(a0 & a1 & a2 & Ha & ? & ?)|(a0 & a1 & a2 & a3 & Ha & ? & ?)]]];
    destruct (encode_codepoint_decode _ _ H2)
      as [(b0 & Hb & ? & ?)|[(b0 & b1 & Hb & ? & ?)
         |[(b0 & b1 & b2 & Hb & ? & ?)|(b0 & b1 & b2 & b3 & Hb & ? & ?)]]];
    rewrite Ha, Hb in Heq; cbn [app] in Heq; injection Heq; intros; lia. }
  split; [done|]. rewrite H1 in H2. injection H2 as ->. by apply app_inv_head in Heq.
Qed.

Lemma encode_utf8_inj s1 s2 bs :
  encode_utf8 s1 = Ok bs → encode_utf8 s2 = Ok bs → s1 = s2.
Proof.
  revert s2 bs. induction s1 as [|c1 s1 IH]; intros [|c2 s2] bs; cbn [encode_utf8].
  - done.
  - intros [= <-]. destruct (encode_codepoint c2) as [b2|] eqn:H2; [|discriminate].
    destruct (encode_utf8 s2); [|discriminate]. cbn [mbind result_bind].
    intros [= Hnil]. apply app_eq_nil in Hnil as [-> _].
    apply encode_codepoint_decode in H2. cbn in H2.
    destruct H2 as [(? & ? & _)|[(? & ? & ? & _)|[(? & ? & ? & ? & _)|(? & ? & ? & ? & ? & _)]]];
      discriminate.
  - destruct (encode_codepoint c1) as [b1|] eqn:H1; [|discriminate].
    destruct (encode_utf8 s1); [|discriminate]. cbn [mbind result_bind].
    intros [= <-] [= Hnil]. symmetry in Hnil. apply app_eq_nil in Hnil as [-> _].
    apply encode_codepoint_decode in H1. cbn in H1.
    destruct H1 as [(? & ? & _)|[(? & ? & ? & _)|[(? & ? & ? & ? & _)|(? & ? & ? & ? & ? & _)]]];
      discriminate.
  - destruct (encode_codepoint c1) as [b1|] eqn:H1; [|discriminate].
    destruct (encode_utf8 s1) as [r1|] eqn:Hr1; [|discriminate].
    destruct (encode_codepoint c2) as [b2|] eqn:H2; [|discriminate].
    destruct (encode_utf8 s2) as [r2|] eqn:Hr2; [|discriminate].
    cbn [mbind result_bind]. intros [= <-] [= Heq]. symmetry in Heq.
    destruct (encode_codepoint_inj _ _ _ _ _ _ H1 H2 Heq) as [-> ->].
    by rewrite (IH s2 r2 eq_refl Hr2).
Qed.

Lemma quote_plus_free bs : Forall (fun c => c ≠ 43%N) (quote bs).
Proof.
  unfold quote. induction bs as [|b bs IH]; cbn; [constructor|].
  apply Forall_app. split; [|exact IH].
  destruct b; vm_compute; repeat constructor; discriminate.
Qed.

Lemma plus_free_app_inj (p p' r r' : pystr) :
  Forall (fun c => c ≠ 43%N) p →
  Forall (fun c => c ≠ 43%N) p' →
  r = [] ∨ (∃ t, r = 43%N :: t) →
  r' = [] ∨ (∃ t, r' = 43%N :: t) →
  p ++ r = p' ++ r' →
  p = p' ∧ r = r'.
Proof.
  intros Hp. revert p'. induction Hp as [|c p Hc _ IH]; intros p' Hp' Hr Hr' Heq.
  - destruct Hp' as [|c' p' Hc' _]; [done|]. cbn in Heq.
    destruct Hr as [->|[t ->]]; [discriminate|]. injection Heq as <- _. done.
  - destruct Hp' as [|c' p' Hc' Hp']; cbn in Heq.
    + destruct Hr' as [->|[t ->]]; [discriminate|]. injection Heq as -> _. done.
    + injection Heq as -> Heq. destruct (IH p' Hp' Hr Hr' Heq) as [-> ->]. done.
Qed.

Lemma join_cons sep p ps :
  join sep (p :: ps) = p ++ match ps with [] => [] | _ :: _ => sep ++ join sep ps end.
Proof. destruct ps; cbn [join]; [by rewrite app_nil_r | done]. Qed.

Lemma join_plus_inj parts1 parts2 :
  Forall (Forall (fun c => c ≠ 43%N)) parts1 →
  Forall (Forall (fun c => c ≠ 43%N)) parts2 →
  parts1 ≠ [] → parts2 ≠ [] →
  join [43%N] parts1 = join [43%N] parts2 →
  parts1 = parts2.
Proof.
  intros H1. revert parts2.
  induction H1 as [|p ps Hp Hps IH]; intros parts2 H2 Hne1 Hne2 Heq; [done|].
  destruct H2 as [|p' ps' Hp' Hps']; [done|].
  rewrite !join_cons in Heq.
  apply plus_free_app_inj in Heq as [-> Heq]; [|done|done| |].
  - destruct ps as [|q ps], ps' as [|q' ps']; [done|discriminate|discriminate|].
    cbn [app] in Heq. injection Heq as Heq.
    by rewrite (IH (q' :: ps') Hps' ltac:(done) ltac:(done) Heq).
  - destruct ps; [by left | right; by eexists].
  - destruct ps'; [by left | right; by eexists].
Qed.

Lemma quoted_token_inj t1 t2 p :
  quote <$> encode_utf8 t1 = Ok p → quote <$> encode_utf8 t2 = Ok p → t1 = t2.
Proof.
  destruct (encode_utf8 t1) as [b1|] eqn:H1; [|discriminate].
  destruct (encode_utf8 t2) as [b2|] eqn:H2; [|discriminate].
  cbn [fmap result_fmap]. intros [= <-] [= Hq]. apply quote_inj in Hq as ->.
  exact (encode_utf8_inj _ _ _ H1 H2).
Qed.

(** X15: normalisation loses nothing: two queries that each give at least
    one token and are normalised to the same string have the same tokens. *)
Theorem parse_query_is_injective (get_title_tokens : pystr → bool → list pystr)
        query1 query2 log1 log2 normalised :
  get_title_tokens query1 false ≠ [] →
  get_title_tokens query2 false ≠ [] →
  _parse_query get_title_tokens query1 = (log1, Ok normalised) →
  _parse_query get_title_tokens query2 = (log2, Ok normalised) →
  get_title_tokens query1 false = get_title_tokens query2 false.
Proof.
  intros Hne1 Hne2. unfold _parse_query. rewrite !bool_decide_eq_true_2 by done.
  cbn [mbind IO_bind emit]. unfold lift.
  destruct (comprehension _ (get_title_tokens query1 false)) as [parts1|] eqn:H1;
    [|discriminate].
  destruct (comprehension _ (get_title_tokens query2 false)) as [parts2|] eqn:H2;
    [|discriminate].
  cbn [mbind IO_bind mret IO_ret]. intros [= _ <-] [= _ Heq].
  apply comprehension_inv in H1, H2.
  assert (∀ tokens parts,
            Forall2 (fun t p => quote <$> encode_utf8 t = Ok p) tokens parts →
            Forall (Forall (fun c => c ≠ 43%N)) parts) as Hfree.
  { intros tokens parts HF. induction HF as [|t p ts ps Hp _ IH]; constructor; [|done].
    destruct (encode_utf8 t); [|discriminate]. injection Hp as <-.
    apply quote_plus_free. }
  assert (parts2 = parts1) as ->.
  { apply join_plus_inj; [by eapply Hfree | by eapply Hfree | | | exact Heq].
    - intros ->. inversion H2. congruence.
    - intros ->. inversion H1. congruence. }
  clear Heq Hne1 Hne2. revert H2.
  generalize (get_title_tokens query2 false).
  induction H1 as [|t1 p ts1 ps Hp _ IH]; intros ts2 H2; inversion H2; subst; [done|].
  f_equal; [by eapply quoted_token_inj | by apply IH].
Qed.

Lemma parse_query_is_injective_witness :
  Samples.tokens (str "A Book") false = Samples.tokens (str " A  Book ") false.
Proof.
  apply (parse_query_is_injective Samples.tokens (str "A Book") (str " A  Book ")
           [Tokenize (str "A Book") false] [Tokenize (str " A  Book ") false]
           (str "A+Book")); by vm_compute.
Defined.

(** ** Plain tokens and the requests of a search *)

Lemma quote_safe_ascii c : quote_safe c = true → (c < 128)%N.
Proof.
  unfold quote_safe.
  rewrite !orb_true_iff, !andb_true_iff, !N.leb_le, !N.eqb_eq. lia.
Qed.

Lemma encode_utf8_safe (t : pystr) :
  Forall (fun c => quote_safe c = true) t →
  quote <$> encode_utf8 t = Ok t.
Proof.
  induction 1 as [|c t Hc _ IH]; [done|]. cbn [encode_utf8].
  pose proof (quote_safe_ascii c Hc) as Hlt.
  unfold encode_codepoint. destruct (N.ltb_spec c 128); [|lia].
  destruct (encode_utf8 t) as [bs|]; [|discriminate].
  cbn [mbind result_bind fmap result_fmap app] in *. injection IH as IH.
  unfold quote in *. cbn [fmap list_fmap concat]. rewrite IH.
  unfold quote_byte. rewrite to_N_byte_of_N_small by lia. by rewrite Hc.
Qed.

Lemma comprehension_safe (tokens : list pystr) :
  Forall (Forall (fun c => quote_safe c = true)) tokens →
  comprehension (fun t => quote <$> encode_utf8 t) tokens = Ok tokens.
Proof.
  induction 1 as [|t tokens Ht _ IH]; [done|]. cbn [comprehension].
  by rewrite (encode_utf8_safe t Ht), IH.
Qed.

(** X16: tokens made of ASCII letters, digits and [_.-~/] only pass through
    unchanged: the normalised query is the tokens joined with [+]. *)
Theorem parse_query_plain_tokens (get_title_tokens : pystr → bool → list pystr) query :
  get_title_tokens query false ≠ [] →
  Forall (Forall (fun c => quote_safe c = true)) (get_title_tokens query false) →
  _parse_query get_title_tokens query
  = ([Tokenize query false], Ok (join (str "+") (get_title_tokens query false))).
Proof.
  intros Hne Hsafe. unfold _parse_query. rewrite bool_decide_eq_true_2 by done.
  unfold lift. by rewrite (comprehension_safe _ Hsafe).
Qed.

Lemma parse_query_plain_tokens_witness :
  _parse_query Samples.tokens (str "A Book")
  = ([Tokenize (str "A Book") false],
     Ok (join (str "+") (Samples.tokens (str "A Book") false))).
Proof.
  apply (parse_query_plain_tokens Samples.tokens (str "A Book")).
  - by vm_compute.
  - replace (Samples.tokens (str "A Book") false) with [str "A"; str "Book"]
      by (by vm_compute).
    repeat constructor.
Defined.

(** X17: an active [search] whose query was normalised requests the search
    page first and then the detail page of each id the search page lists,
    once per listed id in some order, and nothing else. *)
Theorem search_requests
        get_title_tokens web as_completed self query generic_cover locale
        log query' found :
  active self = true →
  _parse_query get_title_tokens query = (log, Ok query') →
  (_search_book_id web query').2 = Ok found →
  ∃ detail,
    requests
      (search get_title_tokens web as_completed self query generic_cover locale).1
    = (SEARCH_URL ++ query') :: detail
    ∧ detail ≡ₚ book_url <$> default [] found.
Proof.
  intros Hactive Hparse Hfound.
  pose proof (parse_query_log get_title_tokens query) as Hlog.
  rewrite Hparse in Hlog. cbn [fst] in Hlog. subst log.
  rewrite (search_active _ _ _ _ _ _ _ _ _ Hactive Hparse).
  rewrite search_book_id_eq in Hfound. cbn [snd] in Hfound.
  exists (book_url <$> default [] found). split; [|done].
  destruct (web (SEARCH_URL ++ query')) as [html|e].
  - injection Hfound as <-. cbn zeta. cbn [default].
    destruct (omap _ _) as [|id ids]; cbn [fst].
    + reflexivity.
    + by rewrite requests_app, requests_cons_HttpGet, requests_HttpGet.
  - injection Hfound as <-. reflexivity.
Qed.

Lemma search_requests_witness :
  ∃ detail,
    requests
      (search Samples.tokens Samples.site (@rev _) {| active := true |}
              (str "A Book") (str "cover.svg") (str "en")).1
    = (SEARCH_URL ++ str "A+Book") :: detail
    ∧ detail ≡ₚ book_url <$> [str "101"; str "103"; str "104"; str "105"; str "106";
                            str "107"; str "108"; str "109"; str "110"].
Proof.
  apply (search_requests Samples.tokens Samples.site (@rev _) {| active := true |}
           (str "A Book") (str "cover.svg") (str "en")
           [Tokenize (str "A Book") false] (str "A+Book")
           (Some [str "101"; str "103"; str "104"; str "105"; str "106";
                  str "107"; str "108"; str "109"; str "110"]));
    [reflexivity | vm_compute; reflexivity | vm_compute; reflexivity].
Defined.


(** ** The normalised query against the formats *)

Lemma N_below (P : N → Prop) (n : nat) :
  (∀ k, (k < n)%nat → P (N.of_nat k)) → ∀ x, (x < N.of_nat n)%N → P x.
Proof. intros H x Hx. rewrite <- (N2Nat.id x). apply H. lia. Qed.

Lemma lor_continuation x : (x < 64)%N → N.lor 128 x = (128 + x)%N.
Proof.
  apply (N_below (fun x => N.lor 128 x = (128 + x)%N) 64).
  intros k Hk. do 64 (destruct k as [|k]; [reflexivity|]). lia.
Qed.

Lemma lor_lead2 x : (x < 32)%N → N.lor 192 x = (192 + x)%N.
Proof.
  apply (N_below (fun x => N.lor 192 x = (192 + x)%N) 32).
  intros k Hk. do 32 (destruct k as [|k]; [reflexivity|]). lia.
Qed.

Lemma lor_lead3 x : (x < 16)%N → N.lor 224 x = (224 + x)%N.
Proof.
  apply (N_below (fun x => N.lor 224 x = (224 + x)%N) 16).
  intros k Hk. do 16 (destruct k as [|k]; [reflexivity|]). lia.
Qed.

Lemma lor_lead4 x : (x < 8)%N → N.lor 240 x = (240 + x)%N.
Proof.
  apply (N_below (fun x => N.lor 240 x = (240 + x)%N) 8).
  intros k Hk. do 8 (destruct k as [|k]; [reflexivity|]). lia.
Qed.

Lemma shiftr_6 c : N.shiftr c 6 = (c / 64)%N.
Proof. by rewrite N.shiftr_div_pow2. Qed.

Lemma shiftr_12 c : N.shiftr c 12 = (c / 4096)%N.
Proof. by rewrite N.shiftr_div_pow2. Qed.

Lemma shiftr_18 c : N.shiftr c 18 = (c / 262144)%N.
Proof. by rewrite N.shiftr_div_pow2. Qed.

Lemma land_63 c : N.land c 63 = (c mod 64)%N.
Proof. change 63%N with (N.ones 6). by rewrite N.land_ones. Qed.

(** The bytes the code produces for a code point are those of the layout. *)
Lemma encode_codepoint_spec c bs :
  encode_codepoint c = Some bs → Byte.to_N <$> bs = utf8_spec c.
Proof.
  unfold encode_codepoint, utf8_spec.
  rewrite !shiftr_6, !shiftr_12, !shiftr_18, !land_63.
  destruct (N.ltb_spec c 128) as [H1|H1].
  { intros [= <-]. cbn [fmap list_fmap]. by rewrite to_N_byte_of_N_small by lia. }
  destruct (N.ltb_spec c 2048) as [H2|H2].
  { intros [= <-]. cbn [fmap list_fmap].
    rewrite !to_N_byte_of_N_small
      by (zify; Z.to_euclidean_division_equations; lia).
    rewrite lor_lead2 by (zify; Z.to_euclidean_division_equations; lia).
    rewrite lor_continuation by (zify; Z.to_euclidean_division_equations; lia).
    done. }
  destruct ((55296 <=? c)%N && (c <=? 57343)%N); [discriminate|].
  destruct (N.ltb_spec c 65536) as [H3|H3].
  { intros [= <-]. cbn [fmap list_fmap].
    rewrite !to_N_byte_of_N_small
      by (zify; Z.to_euclidean_division_equations; lia).
    rewrite lor_lead3 by (zify; Z.to_euclidean_division_equations; lia).
    rewrite !lor_continuation by (zify; Z.to_euclidean_division_equations; lia).
    done. }
  destruct (N.ltb_spec c 1114112) as [H4|H4]; [|discriminate].
  intros [= <-]. cbn [fmap list_fmap].
  rewrite !to_N_byte_of_N_small
    by (zify; Z.to_euclidean_division_equations; lia).
  rewrite lor_lead4 by (zify; Z.to_euclidean_division_equations; lia).
  rewrite !lor_continuation by (zify; Z.to_euclidean_division_equations; lia).
  done.
Qed.

Lemma encode_utf8_spec (t : pystr) bs :
  encode_utf8 t = Ok bs → Byte.to_N <$> bs = flat_map utf8_spec t.
Proof.
  revert bs. induction t as [|c t IH]; intros bs; cbn [encode_utf8 flat_map].
  - by intros [= <-].
  - destruct (encode_codepoint c) as [b|] eqn:Hc; [|discriminate].
    destruct (encode_utf8 t) as [r|]; [|discriminate].
    cbn [mbind result_bind]. intros [= <-].
    by rewrite fmap_app, (encode_codepoint_spec _ _ Hc), (IH r eq_refl).
Qed.

Lemma quote_byte_spec b : quote_byte b = percent_byte_spec (Byte.to_N b).
Proof. destruct b; vm_compute; reflexivity. Qed.

Lemma quote_spec bs : quote bs = percent_encode_spec (Byte.to_N <$> bs).
Proof.
  unfold quote, percent_encode_spec.
  induction bs as [|b bs IH]; [done|].
  cbn [fmap list_fmap concat flat_map]. by rewrite quote_byte_spec, <- IH.
Qed.

Lemma join_plus_spec (part : pystr) parts :
  join (str "+") (part :: parts) = part ++ flat_map (fun p => 43%N :: p) parts.
Proof.
  revert part. induction parts as [|q parts IH]; intros part.
  - cbn. by rewrite app_nil_r.
  - change (join (str "+") (part :: q :: parts))
      with (part ++ str "+" ++ join (str "+") (q :: parts)).
    rewrite IH. reflexivity.
Qed.

Lemma quoted_tokens_spec (tokens : list pystr) encoded :
  Forall2 (fun t bs => encode_utf8 t = Ok bs) tokens encoded →
  quote <$> encoded
  = (fun t => percent_encode_spec (flat_map utf8_spec t)) <$> tokens.
Proof.
  induction 1 as [|t bs tokens encoded Ht _ IH]; [done|].
  cbn [fmap list_fmap]. by rewrite quote_spec, (encode_utf8_spec _ _ Ht), <- IH.
Qed.

(** C6 (as the code has it): when the tokenizer yields at least one token
    and the tokens hold Unicode scalar values only, [_parse_query] returns
    the tokens, each as the percent-encoding of its UTF-8 bytes, joined with
    "+"; when the tokenizer yields no token, [_parse_query] returns the query
    as it came. *)
Theorem parse_query_normalises (get_title_tokens : pystr → bool → list pystr) query :
  (get_title_tokens query false ≠ [] →
   Forall (Forall scalar_value) (get_title_tokens query false) →
   _parse_query get_title_tokens query
   = ([Tokenize query false], Ok (normalise_spec (get_title_tokens query false))))
  ∧ (get_title_tokens query false = [] →
     _parse_query get_title_tokens query = ([Tokenize query false], Ok query)).
Proof.
  unfold _parse_query. split.
  - intros Hne Hwf. destruct (encode_all _ Hwf) as [encoded Henc].
    rewrite bool_decide_eq_true_2 by done.
    unfold lift. rewrite (comprehension_quote _ _ Henc).
    cbn [mbind IO_bind emit mret IO_ret app].
    unfold normalise_spec. rewrite <- (quoted_tokens_spec _ _ Henc).
    destruct encoded as [|bs encoded]; [by inversion Henc; subst|].
    cbn [fmap list_fmap]. by rewrite join_plus_spec.
  - intros ->. reflexivity.
Qed.

Lemma parse_query_normalises_witness :
  _parse_query Samples.tokens (str "a&b c+d " ++ [51648%N])
  = ([Tokenize (str "a&b c+d " ++ [51648%N]) false],
     Ok (str "a%26b+c%2Bd+%EC%A7%80"))
  ∧ _parse_query Samples.tokens (str "  ") = ([Tokenize (str "  ") false], Ok (str "  ")).
Proof.
  split.
  - etrans.
    + apply (proj1 (parse_query_normalises Samples.tokens
                      (str "a&b c+d " ++ [51648%N]))).
      * by vm_compute.
      * replace (Samples.tokens (str "a&b c+d " ++ [51648%N]) false)
          with [str "a&b"; str "c+d"; [51648%N]] by (by vm_compute).
        repeat constructor.
    + vm_compute. reflexivity.
  - apply (proj2 (parse_query_normalises Samples.tokens (str "  "))). by vm_compute.
Defined.

(** C6 as the claim words it fails: a query whose one token is a lone
    surrogate gives a token, yet [_parse_query] returns nothing, it raises. *)
Lemma parse_query_lone_surrogate :
  Samples.tokens [55296%N] false ≠ []
  ∧ ¬ ∃ normalised,
        (_parse_query Samples.tokens [55296%N]).2 = Ok normalised.
Proof.
  split; [by vm_compute|]. intros [normalised H]. by vm_compute in H.
Qed.
